(** * CME detector (app.js): buffers, rule scan, anomaly check, forecast, export

    A shallow embedding of the server's pipeline.

    - JavaScript numbers are IEEE-754 binary64 values, modelled by Rocq's
      primitive [float]; [null] and [undefined] are [None].
    - The three module-level arrays ([plasmaBuffer], [magBuffer],
      [detections]) are threaded through every operation as an explicit
      [State]; the optional MongoDB mirror is outside of it.
    - Samples are the objects [plasmaRowToObj] and [magRowToObj] return:
      a timestamp string and number-or-null fields.
    - A [for] loop over an index range is [forLoop]; array reads go through
      [at_index], which is [None] out of range like an array read in
      JavaScript. *)

From Stdlib Require Import Floats ZArith QArith Qround.
From stdpp Require Import gmap strings list pretty.

Set Warnings "-inexact-float".

(** ** The JavaScript runtime operations the server relies on *)

Module JS.

Definition number := float.

(** ToBoolean on a number: [+0], [-0] and [NaN] are falsy. *)
Definition truthy (x : number) : bool :=
  negb (PrimFloat.is_zero x || PrimFloat.is_nan x).

(** [x || d] on numbers. *)
Definition orElse (x d : number) : number := if truthy x then x else d.

(** ToNumber on a number-or-null value: [null] coerces to [+0]. *)
Definition toNumber (v : option number) : number :=
  match v with Some x => x | None => 0%float end.

(** [v || d] where [v] is a number, [null] or [undefined]. *)
Definition orElseNull (v : option number) (d : number) : number :=
  match v with Some x => orElse x d | None => d end.

(** Relational operators: every comparison with [NaN] is false. *)
Definition gt (a b : number) : bool := PrimFloat.ltb b a.
Definition lt (a b : number) : bool := PrimFloat.ltb a b.
Definition le (a b : number) : bool := PrimFloat.leb a b.

Definition Math_abs (x : number) : number := PrimFloat.abs x.
Definition Math_sqrt (x : number) : number := PrimFloat.sqrt x.

(** [Math.max(a, b)] and [Math.min(a, b)]: [NaN] is contagious and
    [-0] is smaller than [+0]. *)
Definition Math_max (a b : number) : number :=
  if PrimFloat.is_nan a || PrimFloat.is_nan b then PrimFloat.nan
  else if PrimFloat.ltb a b then b
  else if PrimFloat.ltb b a then a
  else if PrimFloat.get_sign a then b else a.

Definition Math_min (a b : number) : number :=
  if PrimFloat.is_nan a || PrimFloat.is_nan b then PrimFloat.nan
  else if PrimFloat.ltb a b then a
  else if PrimFloat.ltb b a then b
  else if PrimFloat.get_sign a then a else b.

(** The float of an integer of magnitude at most [2^53] (exact). *)
Definition of_Z (n : Z) : number :=
  match n with
  | Z0 => 0%float
  | Zpos _ => PrimFloat.of_uint63 (Uint63.of_Z n)
  | Zneg p => PrimFloat.opp (PrimFloat.of_uint63 (Uint63.of_Z (Zpos p)))
  end.

(** [Math.round(x)]: the nearest integer, ties towards [+Infinity];
    [NaN], the infinities and integers are returned as they are, and a
    zero result keeps the sign of a negative argument. *)
Definition Math_round (x : number) : number :=
  match Prim2SF x with
  | S754_finite s m e =>
      if (0 <=? e)%Z then x
      else
        let num := if s then Zneg m else Zpos m in
        let d := (2 ^ (- e))%Z in
        let n := ((2 * num + d) / (2 * d))%Z in
        if (n =? 0)%Z then (if s then PrimFloat.neg_zero else 0%float)
        else of_Z n
  | _ => x
  end.

(** *** Number-to-string conversion (ECMAScript Number::toString, radix 10)

    The finite value [m * 2^e] is printed with the fewest decimal digits
    [s] (and exponent [n]) such that [s * 10^(n-k)] still rounds to it. *)

Definition pow10 (z : Z) : Q :=
  if (0 <=? z)%Z then inject_Z (10 ^ z) else Qinv (inject_Z (10 ^ (- z))).
Definition pow2 (z : Z) : Q :=
  if (0 <=? z)%Z then inject_Z (2 ^ z) else Qinv (inject_Z (2 ^ (- z))).
Definition Qltb (a b : Q) : bool := negb (Qle_bool b a).

Fixpoint mag_up (fuel : nat) (v : Q) (n : Z) : Z :=
  match fuel with
  | O => n
  | S f => if Qltb v (pow10 n) then n else mag_up f v (n + 1)
  end.
Fixpoint mag_down (fuel : nat) (v : Q) (n : Z) : Z :=
  match fuel with
  | O => n
  | S f => if Qltb v (pow10 (n - 1)) then mag_down f v (n - 1) else n
  end.

(** The [n] with [10^(n-1) <= m * 2^e < 10^n], found around the estimate
    [log2 * 0.30103]. *)
Definition magnitude (m : positive) (e : Z) : Z :=
  let v := Qred (inject_Z (Zpos m) * pow2 e)%Q in
  let guess := ((Z.log2 (Zpos m) + e) * 30103 / 100000)%Z in
  mag_down 4 v (mag_up 4 v guess).

(** The interval of reals that round to [m * 2^e]; its ends belong to it
    when the significand is even. *)
Definition round_interval (m : positive) (e : Z) : Q * Q * bool :=
  let v := (inject_Z (Zpos m) * pow2 e)%Q in
  let up := pow2 (e - 1) in
  let down := if (Zpos m =? 2 ^ 52)%Z && (-1074 <? e)%Z
              then pow2 (e - 2) else pow2 (e - 1) in
  (Qred (v - down)%Q, Qred (v + up)%Q, Z.even (Zpos m)).

Definition in_interval (iv : Q * Q * bool) (x : Q) : bool :=
  let '(lo, hi, closed) := iv in
  if closed then Qle_bool lo x && Qle_bool x hi
  else Qltb lo x && Qltb x hi.

(** Try [k], [k+1], ... digits; return [(s, n)]. *)
Fixpoint shortest (fuel : nat) (k : Z) (v : Q) (iv : Q * Q * bool) (n0 : Z)
  : Z * Z :=
  let p := pow10 (n0 - k) in
  let s0 := Qfloor (v / p)%Q in
  let s1 := (s0 + 1)%Z in
  let x0 := (inject_Z s0 * p)%Q in
  let x1 := (inject_Z s1 * p)%Q in
  let pick :=
    match in_interval iv x0, in_interval iv x1 with
    | true, true =>
        if Qltb (v - x0)%Q (x1 - v)%Q then Some s0
        else if Qltb (x1 - v)%Q (v - x0)%Q then Some s1
        else if Z.even s0 then Some s0 else Some s1
    | true, false => Some s0
    | false, true => Some s1
    | false, false => None
    end in
  match pick with
  | Some s => if (s =? 10 ^ k)%Z then ((10 ^ (k - 1))%Z, (n0 + 1)%Z) else (s, n0)
  | None =>
      match fuel with
      | O => (s0, n0)
      | S f => shortest f (k + 1) v iv n0
      end
  end.

Fixpoint zeros (n : nat) : string :=
  match n with O => "" | S n' => "0" +:+ zeros n' end.

Definition format_digits (s n : Z) : string :=
  let ds : string := pretty s in
  let k := Z.of_nat (String.length ds) in
  if (k <=? n)%Z && (n <=? 21)%Z then ds +:+ zeros (Z.to_nat (n - k))
  else if (0 <? n)%Z && (n <=? 21)%Z then
    String.substring 0 (Z.to_nat n) ds +:+ "." +:+
    String.substring (Z.to_nat n) (Z.to_nat (k - n)) ds
  else if (-6 <? n)%Z && (n <=? 0)%Z then
    "0." +:+ zeros (Z.to_nat (- n)) +:+ ds
  else
    let ex := (n - 1)%Z in
    let exs := (if (ex <? 0)%Z then "-" else "+") +:+ pretty (Z.abs ex) in
    if (k =? 1)%Z then ds +:+ "e" +:+ exs
    else String.substring 0 1 ds +:+ "." +:+
         String.substring 1 (Z.to_nat (k - 1)) ds +:+ "e" +:+ exs.

Definition numberToString (x : number) : string :=
  match Prim2SF x with
  | S754_nan => "NaN"
  | S754_zero _ => "0"
  | S754_infinity s => if s then "-Infinity" else "Infinity"
  | S754_finite sg m e =>
      let v := Qred (inject_Z (Zpos m) * pow2 e)%Q in
      let '(s, n) := shortest 16 1 v (round_interval m e) (magnitude m e) in
      (if sg then "-" else "") +:+ format_digits s n
  end.

End JS.

(** ** Loops and array access *)

(** [for (let i = from; i < to; i++) acc = body i acc]. *)
Fixpoint forLoop_from {A : Type} (n : nat) (i : Z) (body : Z -> A -> A) (acc : A) : A :=
  match n with
  | O => acc
  | S n' => forLoop_from n' (i + 1)%Z body (body i acc)
  end.

Definition forLoop {A : Type} (from to : Z) (body : Z -> A -> A) (acc : A) : A :=
  forLoop_from (Z.to_nat (to - from)) from body acc.

(** [arr[i]] for an integer index: [undefined] (here [None]) out of range. *)
Definition at_index {A : Type} (arr : list A) (i : Z) : option A :=
  if (i <? 0)%Z then None else arr !! Z.to_nat i.

(** ** Configuration (app.js, lines 22-34) *)

Definition BUFFER_MAX : nat := 3000.
Definition DELTA_WINDOW : Z := 30.
Definition BZ_INTEGRAL_WINDOW : Z := 60.
Definition FORECAST_STEPS : Z := 6.
Definition EWMA_ALPHA : float := 0.25%float.
Definition speed_high : float := 500%float.
Definition density_high : float := 10%float.
Definition bz_south : float := (-10)%float.
Definition deltaV_min : float := 100%float.
Definition DETECTIONS_MAX : nat := 100.

(** ** Samples, detections and the server state *)

Record PlasmaSample := mkPlasma {
  timeISO : string;
  density : option float;
  speed : option float;
  temp : option float
}.

Record MagSample := mkMag {
  mag_timeISO : string;
  bx : option float;
  by_ : option float;
  bz : option float
}.

Record Trigger := mkTrigger { metric : string; trig_z : float }.

Record Anomaly := mkAnomaly {
  a_speed : bool;
  a_bz : bool;
  a_density : bool;
  triggers : list Trigger;
  isAnomaly : bool
}.

Record Detection := mkDetection {
  id : string;
  d_timeISO : string;
  d_speed : float;
  d_density : float;
  d_bz : float;
  d_deltaV : option float;
  forecast_arrival_hours : option float;
  intensity : string;
  pdyn : option float;
  bz_integral : float;
  score : float;
  severity_label : string;
  severity_class : string;
  anomaly : Anomaly
}.

Record State := mkState {
  plasmaBuffer : list PlasmaSample;
  magBuffer : list MagSample;
  detections : list Detection
}.

Definition initial : State := mkState [] [] [].

(** ** Helpers (app.js, lines 52-112) *)

Section Helpers.
Local Open Scope float_scope.

Definition forecastArrivalHours (speed_km_s : float) : option float :=
  if negb (JS.truthy speed_km_s) || JS.le speed_km_s 0 then None
  else Some (JS.Math_round (149597870.7 / speed_km_s / 3600)).

Definition intensityFromSpeed (speed : float) : string :=
  if JS.gt speed 3000 then "Very Strong"
  else if JS.gt speed 1500 then "Strong"
  else if JS.gt speed 1200 then "Moderate"
  else if JS.gt speed 400 then "Mild"
  else "Nominal".

Definition clamp01 (v : float) : float := JS.Math_max 0 (JS.Math_min 1 v).

(** [Math.round(x*100)/100]. *)
Definition round2 (x : float) : float := JS.Math_round (x * 100) / 100.

Definition computePdyn (density speed : option float) : option float :=
  match density, speed with
  | Some density, Some speed => Some (1.6726e-6 * density * (speed * speed))
  | _, _ => None
  end.

Definition computeBzIntegral (magBuf : list MagSample) (idx windowSamples : Z) : float :=
  if (length magBuf =? 0)%nat then 0
  else
    let start := Z.max 0 (idx - windowSamples + 1) in
    let sum :=
      forLoop start (idx + 1)
        (fun i sum =>
           match at_index magBuf i ≫= bz with
           | None => sum
           | Some bz => sum + JS.Math_max 0 (- bz)
           end) 0 in
    round2 sum.

Definition computeScoreAndSeverity (speed density bz deltaV : option float)
  : float * string * string :=
  let speedNorm := clamp01 ((JS.orElseNull speed 0 - 400) / (2000 - 400)) in
  let densityNorm := clamp01 ((JS.orElseNull density 0 - 2) / (50 - 2)) in
  let bzNorm :=
    match bz with
    | Some bz => if JS.lt bz 0 then clamp01 ((- bz) / 50) else 0
    | None => 0
    end in
  let deltaVNorm :=
    match deltaV with Some deltaV => clamp01 (deltaV / 500) | None => 0 end in
  let score :=
    JS.Math_max 0 (JS.Math_min 1
      (0.35 * speedNorm + 0.30 * deltaVNorm + 0.20 * densityNorm + 0.15 * bzNorm)) in
  let severity_label :=
    if JS.gt score 0.75 then "Strong"
    else if JS.gt score 0.5 then "Moderate"
    else if JS.gt score 0.25 then "Mild"
    else "Nominal" in
  let severity_class :=
    if JS.gt score 0.6 then "crit" else if JS.gt score 0.3 then "warn" else "info" in
  (round2 score, severity_label, severity_class).

End Helpers.

(** ** Forecaster (app.js, lines 83-95) *)

Section Forecast.
Local Open Scope float_scope.

(** One smoothing step, [s = alpha*x + (1-alpha)*s]. *)
Definition ewmaStep (alpha : float) (s x : float) : float :=
  alpha * x + (1 - alpha) * s.

Definition simpleEwmaForecast (arr : list float) (alpha : float) (steps : Z)
  : list float :=
  let out : list float := [] in
  if (length arr =? 0)%nat then out
  else
    let s := default nan (at_index arr 0) in
    let s :=
      forLoop 1 (Z.of_nat (length arr))
        (fun i s => ewmaStep alpha s (default nan (at_index arr i))) s in
    forLoop 0 steps (fun k out => out ++ [JS.Math_round s]) out.

End Forecast.

(** ** Anomaly check (app.js, lines 114-135) *)

Section AnomalyCheck.
Local Open Scope float_scope.

Record ZResult := mkZ { z : float; mean : float; sd : float; cur : float }.

Definition WIN : Z := 60.

(** [vals.reduce((a,b)=>a+b,0)] and the sum of squared deviations
    [vals.reduce((a,b)=>a+((b-mean)**2),0)], the square taken as the
    correctly rounded product. *)
Definition sumOf (vals : list float) : float :=
  fold_left (fun a b => a + b) vals 0.
Definition sumSqDev (mean : float) (vals : list float) : float :=
  fold_left (fun a b => a + (b - mean) * (b - mean)) vals 0.

(** The inner helper [zCheck(arr, field)]; [get i] is [arr[i]?.[field]],
    [None] standing for [null] and [undefined] alike, and [s] is the
    window start computed by the caller. *)
Definition zCheck (get : Z -> option float) (s idx : Z) : option ZResult :=
  let vals :=
    forLoop s idx
      (fun i vals => match get i with Some v => vals ++ [v] | None => vals end)
      [] in
  if (length vals <? 8)%nat then None
  else
    let n := JS.of_Z (Z.of_nat (length vals)) in
    let mean := sumOf vals / n in
    let sd := JS.orElse (JS.Math_sqrt (sumSqDev mean vals / n)) 0.00001 in
    match get idx with
    | None => None
    | Some cur => Some (mkZ ((cur - mean) / sd) mean sd cur)
    end.

(** [zX && Math.abs(zX.z) > 3]. *)
Definition triggered (r : option ZResult) : bool :=
  match r with
  | Some r => JS.gt (JS.Math_abs (z r)) 3
  | None => false
  end.

(** [if (zX && Math.abs(zX.z) > 3) { out.x = true; out.triggers.push(...) }]:
    the flag of the metric and the triggers after the statement. *)
Definition checkMetric (name : string) (r : option ZResult) (ts : list Trigger)
  : bool * list Trigger :=
  match r with
  | Some r =>
      if JS.gt (JS.Math_abs (z r)) 3
      then (true, ts ++ [mkTrigger name (round2 (z r))])
      else (false, ts)
  | None => (false, ts)
  end.

Definition detectAnomalyAt (plasma : list PlasmaSample) (mag : list MagSample)
  (idx : Z) : Anomaly :=
  let s := Z.max 0 (idx - WIN) in
  let out_triggers : list Trigger := [] in
  let zSpeed := zCheck (fun i => at_index plasma i ≫= speed) s idx in
  let '(out_speed, out_triggers) := checkMetric "speed" zSpeed out_triggers in
  let zBz := zCheck (fun i => at_index mag i ≫= bz) s idx in
  let '(out_bz, out_triggers) := checkMetric "bz" zBz out_triggers in
  let zD := zCheck (fun i => at_index plasma i ≫= density) s idx in
  let '(out_density, out_triggers) := checkMetric "density" zD out_triggers in
  mkAnomaly out_speed out_bz out_density out_triggers (0 <? length out_triggers)%nat.

End AnomalyCheck.

(** ** Detector (app.js, lines 138-202) *)

Section Detector.
Local Open Scope float_scope.

(** Lines 149-153: the look-back difference.  [plasmaBuffer[j].speed] may
    be [null], which the subtraction coerces to [+0]. *)
Definition deltaVAt (plasma : list PlasmaSample) (i : Z) (speed_i : float)
  : option float :=
  let j := (i - DELTA_WINDOW)%Z in
  if (0 <=? j)%Z then
    match at_index plasma j with
    | Some pj => Some (speed_i - JS.toNumber (speed pj))
    | None => None
    end
  else None.

(** Lines 155-161: the four conditions and the rule. *)
Definition isCME (speed density bz : float) (deltaV : option float) : bool :=
  let condHighSpeed := JS.gt speed speed_high in
  let condDensity := JS.gt density density_high in
  let condSouthBz := JS.lt bz bz_south in
  let condDeltaV :=
    match deltaV with Some dv => JS.gt dv deltaV_min | None => false end in
  (condDeltaV && (condHighSpeed || condDensity))
  || (condHighSpeed && condDensity && condSouthBz).

(** A sample that passed the null guard of line 147, with its look-back. *)
Record Candidate := mkCandidate {
  c_sample : PlasmaSample;
  c_speed : float;
  c_density : float;
  c_bz : float;
  c_deltaV : option float
}.

(** Lines 141-147 and 149-153: what the loop body reads at index [i];
    [None] is the [continue] of the null guard. *)
Definition readSample (plasma : list PlasmaSample) (mag : list MagSample) (i : Z)
  : option Candidate :=
  match at_index plasma i with
  | None => None
  | Some p =>
      match speed p, density p, at_index mag i ≫= bz with
      | Some speed, Some density, Some bz =>
          Some (mkCandidate p speed density bz (deltaVAt plasma i speed))
      | _, _, _ => None
      end
  end.

(** Lines 141-163: the candidate of index [i], when the rule fires. *)
Definition candidateAt (plasma : list PlasmaSample) (mag : list MagSample) (i : Z)
  : option Candidate :=
  match readSample plasma mag i with
  | Some c =>
      if isCME (c_speed c) (c_density c) (c_bz c) (c_deltaV c) then Some c else None
  | None => None
  end.

(** Line 164: [`${p.timeISO}_${Math.round(speed)}`]. *)
Definition detectionId (p : PlasmaSample) (speed : float) : string :=
  timeISO p +:+ "_" +:+ JS.numberToString (JS.Math_round speed).

(** [list.some(d => d.id === id)]. *)
Definition hasId (ds : list Detection) (i : string) : bool :=
  existsb (fun d => String.eqb (id d) i) ds.

(** Lines 166-187: the detection record of a candidate. *)
Definition buildDetection (plasma : list PlasmaSample) (mag : list MagSample)
  (i : Z) (ident : string) (c : Candidate) : Detection :=
  let pdyn := computePdyn (Some (c_density c)) (Some (c_speed c)) in
  let bz_integral := computeBzIntegral mag i BZ_INTEGRAL_WINDOW in
  let '(score, severity_label, severity_class) :=
    computeScoreAndSeverity (Some (c_speed c)) (Some (c_density c))
      (Some (c_bz c)) (c_deltaV c) in
  let anomaly := detectAnomalyAt plasma mag i in
  mkDetection ident (timeISO (c_sample c)) (c_speed c) (c_density c) (c_bz c)
    (JS.Math_round <$> c_deltaV c)
    (forecastArrivalHours (c_speed c))
    (intensityFromSpeed (c_speed c))
    (round2 <$> pdyn)
    bz_integral score severity_label severity_class anomaly.

(** The loop body for index [i]. *)
Definition detectAt (st : State) (i : Z) (newDetections : list Detection)
  : list Detection :=
  match candidateAt (plasmaBuffer st) (magBuffer st) i with
  | Some c =>
      let ident := detectionId (c_sample c) (c_speed c) in
      if negb (hasId (detections st) ident) && negb (hasId newDetections ident)
      then newDetections ++ [buildDetection (plasmaBuffer st) (magBuffer st) i ident c]
      else newDetections
  | None => newDetections
  end.

(** [arr.slice(-n)] for a non-negative integer constant [n]. *)
Definition lastN {A : Type} (n : nat) (l : list A) : list A :=
  drop (length l - n) l.

(** [runDetection()]: returns the new detections and the state after it.
    The mirror write to the optional store is outside the state. *)
Definition runDetection (st : State) : list Detection * State :=
  let newDetections :=
    forLoop 0 (Z.of_nat (length (plasmaBuffer st))) (detectAt st) [] in
  if (0 <? length newDetections)%nat then
    (newDetections,
     mkState (plasmaBuffer st) (magBuffer st)
       (lastN DETECTIONS_MAX (detections st ++ newDetections)))
  else (newDetections, st).

(** [GET /cme-detect]: [{ new: runDetection(), all: detections }]. *)
Definition cmeDetect (st : State) : (list Detection * list Detection) * State :=
  let '(new, st') := runDetection st in
  ((new, detections st'), st').

End Detector.

(** ** Ingestion (app.js, lines 214-222) *)

Section Ingestion.

(** [new Map(magRows.map(m => [m.timeISO, m]))]: a later row with the same
    key replaces an earlier one. *)
Definition magByTime (magRows : list MagSample) : gmap string MagSample :=
  fold_left (fun acc m => <[mag_timeISO m := m]> acc) magRows ∅.

Definition nullMag (t : string) : MagSample := mkMag t None None None.

(** [arr.shift()] when the array grew past [BUFFER_MAX]. *)
Definition shiftIfOver {A : Type} (l : list A) : list A :=
  if (BUFFER_MAX <? length l)%nat then tail l else l.

(** The loop body of lines 216-222 for one plasma row. *)
Definition appendRow (byTime : gmap string MagSample) (st : State) (p : PlasmaSample)
  : State :=
  let m := default (nullMag (timeISO p)) (byTime !! timeISO p) in
  mkState (shiftIfOver (plasmaBuffer st ++ [p]))
          (shiftIfOver (magBuffer st ++ [m]))
          (detections st).

Definition appendBatch (st : State) (plasmaRows : list PlasmaSample)
  (magRows : list MagSample) : State :=
  fold_left (appendRow (magByTime magRows)) plasmaRows st.

(** The success path of [pollNOAA] once both responses were parsed. *)
Definition pollNOAA (st : State) (plasmaRows : list PlasmaSample)
  (magRows : list MagSample) : State :=
  snd (runDetection (appendBatch st plasmaRows magRows)).

End Ingestion.

(** ** Export (app.js, lines 293-363) *)

Section ExportModel.
Local Open Scope float_scope.

Inductive integerOrInfinity := NegInfinity | Finite (n : Z) | PosInfinity.

(** ECMAScript ToIntegerOrInfinity: [NaN] and the zeros give 0, a finite
    value is truncated towards zero. *)
Definition toIntegerOrInfinity (x : float) : integerOrInfinity :=
  match Prim2SF x with
  | S754_nan => Finite 0
  | S754_zero _ => Finite 0
  | S754_infinity s => if s then NegInfinity else PosInfinity
  | S754_finite s m e =>
      let mag := if (0 <=? e)%Z then (Zpos m * 2 ^ e)%Z else (Zpos m / 2 ^ (- e))%Z in
      Finite (if s then (- mag)%Z else mag)
  end.

(** [arr.slice(start)]. *)
Definition slice {A : Type} (arr : list A) (start : float) : list A :=
  let len := Z.of_nat (length arr) in
  let k :=
    match toIntegerOrInfinity start with
    | NegInfinity => 0%Z
    | Finite r => if (r <? 0)%Z then Z.max (len + r) 0 else Z.min r len
    | PosInfinity => len
    end in
  drop (Z.to_nat k) arr.

(** Line 295: [Math.min(50000, Number(req.query.limit) || 1000)]; the
    argument is the value of [Number(req.query.limit)], [NaN] when the
    parameter is absent or not numeric. *)
Definition exportLimit (queryLimit : float) : float :=
  JS.Math_min 50000 (JS.orElse queryLimit 1000).

(** Lines 309-313, the JSON path: [stored] is what the optional store
    returned, [[]] when there is none or the query failed. *)
Definition exportJsonRows (stored : list Detection) (st : State) (queryLimit : float)
  : list Detection :=
  let limit := exportLimit queryLimit in
  if (length stored =? 0)%nat then slice (detections st) (- limit) else stored.

(** Lines 351-357, the CSV fallback used when there is no store. *)
Definition exportCsvRows (st : State) (queryLimit : float) : list Detection :=
  let limit := exportLimit queryLimit in
  slice (detections st) (- limit).

End ExportModel.

(** * Reference definitions and sample inputs *)

(** ** The server as a state machine *)

(** The operations that change the server state: a successful poll and an
    on-demand scan. *)
Inductive Op :=
| Poll (plasmaRows : list PlasmaSample) (magRows : list MagSample)
| Detect.

Definition step (st : State) (op : Op) : State :=
  match op with
  | Poll plasmaRows magRows => pollNOAA st plasmaRows magRows
  | Detect => snd (cmeDetect st)
  end.

(** The state reached from the empty buffers. *)
Definition run (ops : list Op) : State := fold_left step ops initial.

(** ** Buffers *)

(** The field row paired with a plasma row: the row of the same timestamp,
    or a null-valued row. *)
Definition mergeRow (byTime : gmap string MagSample) (p : PlasmaSample) : MagSample :=
  default (nullMag (timeISO p)) (byTime !! timeISO p).

Definition sameTime (p : PlasmaSample) (m : MagSample) : Prop :=
  timeISO p = mag_timeISO m.

(** The buffer invariant: same length, within capacity, and entry [i] of
    one buffer has the timestamp of entry [i] of the other. *)
Definition bufferInvariant (st : State) : Prop :=
  length (plasmaBuffer st) = length (magBuffer st)
  /\ length (plasmaBuffer st) <= BUFFER_MAX
  /\ Forall2 sameTime (plasmaBuffer st) (magBuffer st).

(** ** Rule engine *)

Definition candidateId (c : Candidate) : string :=
  detectionId (c_sample c) (c_speed c).

(** ** Anomaly check, as the specification words it

    The definitions named [spec_...] follow the wording of the
    specification (window, mean, population standard deviation, z-score,
    trigger), to be compared with [zCheck] and [detectAnomalyAt]. *)

Section AnomalyReference.
Local Open Scope float_scope.

(** The non-null values of a metric in the trailing window
    [[max(0,i-60), i)]. *)
Definition spec_window (get : Z -> option float) (i : Z) : list float :=
  omap get (seqZ (Z.max 0 (i - 60)) (i - Z.max 0 (i - 60))).

Definition spec_mean (vals : list float) : float :=
  sumOf vals / JS.of_Z (Z.of_nat (length vals)).

(** Population standard deviation; a result of zero (or [NaN]) is replaced
    by [1e-5], any other result is kept. *)
Definition spec_std (vals : list float) : float :=
  let sd := PrimFloat.sqrt (sumSqDev (spec_mean vals) vals / JS.of_Z (Z.of_nat (length vals))) in
  if PrimFloat.is_zero sd || PrimFloat.is_nan sd then 0.00001 else sd.

(** The z-score of index [i], when there is one: at least 8 non-null values
    in the window and a non-null current value. *)
Definition spec_zScore (get : Z -> option float) (i : Z) : option float :=
  let vals := spec_window get i in
  if (length vals <? 8)%nat then None
  else
    match get i with
    | Some cur => Some ((cur - spec_mean vals) / spec_std vals)
    | None => None
    end.

Definition spec_triggered (get : Z -> option float) (i : Z) : bool :=
  match spec_zScore get i with
  | Some score => JS.gt (PrimFloat.abs score) 3
  | None => false
  end.

End AnomalyReference.

(** ** Sample inputs *)

Section Samples.
Local Open Scope float_scope.

(** One sample with speed 600, density 12 and bz -12, and nothing before
    it. *)
Definition exampleNoLookback : State :=
  mkState [mkPlasma "2024-05-10 17:00:00.000" (Some 12) (Some 600) None]
          [mkMag "2024-05-10 17:00:00.000" None None (Some (-12))] [].

(** A buffer of [n] samples that all satisfy the rule (speed 600, density
    12, bz -12) under the timestamps [t0], [t1], ..., and an empty log. *)
Definition stormSample (k : nat) : PlasmaSample * MagSample :=
  let t := "t" +:+ pretty k in
  (mkPlasma t (Some 12) (Some 600) None, mkMag t None None (Some (-12))).

Definition stormState (n : nat) : State :=
  mkState (map (fun k => fst (stormSample k)) (seq 0 n))
          (map (fun k => snd (stormSample k)) (seq 0 n)) [].

(** A log of ten detections, [t0_600] (oldest) to [t9_600]. *)
Definition tenDetections : State := snd (runDetection (stormState 10)).

Definition oneRow : PlasmaSample :=
  mkPlasma "2024-05-10 17:00:00.000" (Some 5) (Some 400) None.

(** Thirty-one samples: [first], twenty-nine quiet samples (speed 400,
    density 5, bz 0) and [last]; the log is empty. *)
Definition quietSample (k : nat) : PlasmaSample * MagSample :=
  let t := "t" +:+ pretty k in
  (mkPlasma t (Some 5) (Some 400) None, mkMag t None None (Some 0)).

Definition lookbackState (first last : PlasmaSample * MagSample) : State :=
  mkState
    (fst first :: map (fun k => fst (quietSample k)) (seq 1 29) ++ [fst last])
    (snd first :: map (fun k => snd (quietSample k)) (seq 1 29) ++ [snd last])
    [].

(** Sample 0 has no speed reading; sample 30 has speed 450, density 12 and
    bz -2. *)
Definition nullLookback : State :=
  lookbackState
    (mkPlasma "t0" (Some 5) None None, mkMag "t0" None None (Some 0))
    (mkPlasma "t30" (Some 12) (Some 450) None, mkMag "t30" None None (Some (-2))).

(** Sample 0 has speed 300; sample 30 has speed 450, density 3, bz -2. *)
Definition shockOnly : State :=
  lookbackState
    (mkPlasma "t0" (Some 5) (Some 300) None, mkMag "t0" None None (Some 0))
    (mkPlasma "t30" (Some 3) (Some 450) None, mkMag "t30" None None (Some (-2))).

(** Nine samples with constant plasma readings; bz is 0 seven times, then
    [2^-17] (about 7.6e-6), and [2^-16] at the last sample. *)
Definition tinySpread : list PlasmaSample * list MagSample :=
  (map (fun k => mkPlasma ("t" +:+ pretty k) (Some 5) (Some 400) None) (seq 0 9),
   map (fun k => mkMag ("t" +:+ pretty k) None None (Some 0)) (seq 0 7)
   ++ [mkMag "t7" None None (Some 0x1p-17); mkMag "t8" None None (Some 0x1p-16)]).

Definition tinySpreadBz (j : Z) : option float := at_index (snd tinySpread) j ≫= bz.

End Samples.

(** * Further endpoints and the CSV rendering *)

(** ** Read-only endpoints (app.js, lines 249-290) *)

Section Endpoints.
Local Open Scope float_scope.

Record LatestResponse := mkLatest {
  l_plasma : list PlasmaSample;
  l_mag : list MagSample;
  last_polled : option string;
  l_speed_forecast : list float;
  l_bz_forecast : list float
}.

(** [plasmaBuffer.at(-1)?.timeISO || null]: the empty string is falsy. *)
Definition lastPolled (plasma : list PlasmaSample) : option string :=
  match last plasma with
  | Some p => if String.eqb (timeISO p) "" then None else Some (timeISO p)
  | None => None
  end.

(** [GET /latest]; [queryN] is the value of [Number(req.query.n)]. *)
Definition latest (st : State) (queryN : float) : LatestResponse :=
  let n := JS.orElse queryN 500 in
  let plasmaSlice := slice (plasmaBuffer st) (- n) in
  let magSlice := slice (magBuffer st) (- n) in
  let speeds := omap speed plasmaSlice in
  let bzs := omap bz magSlice in
  let speed_forecast := simpleEwmaForecast speeds EWMA_ALPHA FORECAST_STEPS in
  let bz_forecast := simpleEwmaForecast bzs EWMA_ALPHA FORECAST_STEPS in
  mkLatest plasmaSlice magSlice (lastPolled (plasmaBuffer st)) speed_forecast bz_forecast.

Record PredictResponse := mkPredict {
  p_speed_forecast : list float;
  p_bz_forecast : list float;
  quick_score : float;
  quick_severity_label : string;
  quick_severity_class : string;
  quick_anomaly : Anomaly
}.

(** [GET /predict]; [queryN] is the value of [Number(req.query.n)].  The
    quick score is taken from the newest sample with no look-back value. *)
Definition predict (st : State) (queryN : float) : PredictResponse :=
  let recent := JS.orElse queryN 200 in
  let plasmaSlice := slice (plasmaBuffer st) (- recent) in
  let magSlice := slice (magBuffer st) (- recent) in
  let speeds := omap speed plasmaSlice in
  let bzs := omap bz magSlice in
  let speed_forecast := simpleEwmaForecast speeds EWMA_ALPHA FORECAST_STEPS in
  let bz_forecast := simpleEwmaForecast bzs EWMA_ALPHA FORECAST_STEPS in
  let lastP := last (plasmaBuffer st) in
  let lastM := last (magBuffer st) in
  let '(score, severity_label, severity_class) :=
    computeScoreAndSeverity (lastP ≫= speed) (lastP ≫= density) (lastM ≫= bz) None in
  let anomaly :=
    detectAnomalyAt (plasmaBuffer st) (magBuffer st)
      (Z.of_nat (length (plasmaBuffer st)) - 1) in
  mkPredict speed_forecast bz_forecast score severity_label severity_class anomaly.

End Endpoints.

(** ** CSV rendering (app.js, lines 297-305 and 353-357) *)

Section CsvModel.

Definition dquote : Ascii.ascii := Ascii.ascii_of_nat 34.
Definition comma : Ascii.ascii := Ascii.ascii_of_nat 44.
Definition LF : Ascii.ascii := Ascii.ascii_of_nat 10.
Definition CR : Ascii.ascii := Ascii.ascii_of_nat 13.

(** [s.includes(c)] for a one-character [c]. *)
Fixpoint includes (c : Ascii.ascii) (s : string) : bool :=
  match s with
  | EmptyString => false
  | String a r => Ascii.eqb a c || includes c r
  end.

(** [s.replace] of every double quote by two double quotes (line 303). *)
Fixpoint doubleQuotes (s : string) : string :=
  match s with
  | EmptyString => EmptyString
  | String a r =>
      if Ascii.eqb a dquote then String dquote (String dquote (doubleQuotes r))
      else String a (doubleQuotes r)
  end.

(** The values a detection holds under the exported columns. *)
Inductive FieldValue :=
| FNull
| FString (s : string)
| FNumber (x : float).

(** [String(v)] for a value that is not null. *)
Definition fieldText (v : FieldValue) : string :=
  match v with
  | FNull => ""
  | FString s => s
  | FNumber x => JS.numberToString x
  end.

Definition csvEscape (v : FieldValue) : string :=
  match v with
  | FNull => ""
  | _ =>
      let s := fieldText v in
      if includes dquote s || includes comma s || includes LF s || includes CR s
      then String dquote (doubleQuotes s +:+ String dquote "")
      else s
  end.

Definition cols : list string :=
  ["id"; "timeISO"; "speed"; "density"; "bz"; "deltaV"; "pdyn"; "bz_integral";
   "score"; "severity_label"; "severity_class"; "intensity";
   "forecast_arrival_hours"].

Definition numberOrNull (v : option float) : FieldValue :=
  match v with Some x => FNumber x | None => FNull end.

(** [cols.map(c => r[c])] for a detection [r]. *)
Definition rowValues (r : Detection) : list FieldValue :=
  [FString (id r); FString (d_timeISO r); FNumber (d_speed r);
   FNumber (d_density r); FNumber (d_bz r); numberOrNull (d_deltaV r);
   numberOrNull (pdyn r); FNumber (bz_integral r); FNumber (score r);
   FString (severity_label r); FString (severity_class r);
   FString (intensity r); numberOrNull (forecast_arrival_hours r)].

(** [arr.join(',')]. *)
Definition joinComma (fields : list string) : string :=
  String.concat (String comma "") fields.

(** [cols.map(c => csvEscape(r[c])).join(',')]. *)
Definition csvLine (r : Detection) : string :=
  joinComma (map csvEscape (rowValues r)).

(** The rows written by the in-memory fallback, each followed by a line
    feed. *)
Definition exportCsvLines (st : State) (queryLimit : float) : list string :=
  map (fun r => csvLine r +:+ String LF "") (exportCsvRows st queryLimit).

End CsvModel.

(** ** Reference definitions for the further properties *)

(** Splitting a CSV line into its fields the RFC 4180 way: a comma outside
    quotes ends a field, a quote opens or closes a quoted field, and a
    doubled quote inside a quoted field stands for one quote. *)
Fixpoint parseFields (s : string) (inQuotes : bool) (field : string) : list string :=
  match s with
  | EmptyString => [field]
  | String a r =>
      if inQuotes then
        if Ascii.eqb a dquote then
          match r with
          | String b r' =>
              if Ascii.eqb b dquote
              then parseFields r' true (field +:+ String dquote "")
              else parseFields r false field
          | EmptyString => [field]
          end
        else parseFields r true (field +:+ String a "")
      else if Ascii.eqb a comma then field :: parseFields r false ""
      else if Ascii.eqb a dquote then parseFields r true field
      else parseFields r false (field +:+ String a "")
  end.

Definition parseCsvLine (line : string) : list string := parseFields line false "".

(** The order of the intensity buckets and of the severity labels. *)
Definition intensityRank (label : string) : nat :=
  if String.eqb label "Very Strong" then 4
  else if String.eqb label "Strong" then 3
  else if String.eqb label "Moderate" then 2
  else if String.eqb label "Mild" then 1
  else 0.

(** Chaining two comparisons none of which is [Gt]. *)
Definition chain (c1 c2 : comparison) : comparison :=
  match c1, c2 with Eq, Eq => Eq | _, _ => Lt end.

(** A sample that is neither fast nor dense for the rule. *)
Definition quietForRule (p : PlasmaSample) : Prop :=
  (forall s, speed p = Some s -> JS.gt s speed_high = false)
  /\ (forall d, density p = Some d -> JS.gt d density_high = false).

(** * Properties *)

(** ** Loops *)

Lemma forLoop_from_snoc {A : Type} (n : nat) (i : Z) (body : Z -> A -> A) (acc : A) :
  forLoop_from (S n) i body acc = body (i + Z.of_nat n)%Z (forLoop_from n i body acc).
Proof.
  revert i acc. induction n as [|n IH]; intros i acc.
  - simpl. by rewrite Z.add_0_r.
  - change (forLoop_from (S (S n)) i body acc)
      with (forLoop_from (S n) (i + 1)%Z body (body i acc)).
    rewrite IH. simpl forLoop_from at 2.
    f_equal. lia.
Qed.

(** A loop whose body ignores the accumulator's history can be read as a
    fold over the indices it visits. *)
Lemma forLoop_from_seqZ {A : Type} (n : nat) (i : Z) (body : Z -> A -> A) (acc : A) :
  forLoop_from n i body acc = fold_left (fun a j => body j a) (seqZ i (Z.of_nat n)) acc.
Proof.
  revert i acc. induction n as [|n IH]; intros i acc; [done|].
  rewrite Nat2Z.inj_succ, seqZ_cons by lia.
  simpl. rewrite IH. do 2 f_equal. lia.
Qed.

(** Pushing the same value [n] times. *)
Lemma forLoop_from_push {A : Type} (n : nat) (i : Z) (v : A) (out : list A) :
  forLoop_from n i (fun _ out => out ++ [v]) out = out ++ replicate n v.
Proof.
  revert i out. induction n as [|n IH]; intros i out; simpl.
  - by rewrite app_nil_r.
  - rewrite IH. by rewrite <- app_assoc.
Qed.

(** Collecting the non-null values of an index range. *)
Lemma forLoop_from_collect {A : Type} (get : Z -> option A) (n : nat) (i : Z) (acc : list A) :
  forLoop_from n i
    (fun j vals => match get j with Some v => vals ++ [v] | None => vals end) acc
  = acc ++ omap get (seqZ i (Z.of_nat n)).
Proof.
  revert i acc. induction n as [|n IH]; intros i acc.
  - simpl. by rewrite app_nil_r.
  - rewrite Nat2Z.inj_succ, seqZ_cons by lia.
    simpl. rewrite IH.
    replace (Z.pred (Z.succ (Z.of_nat n))) with (Z.of_nat n) by lia.
    replace (Z.succ i) with (i + 1)%Z by lia.
    destruct (get i); [by rewrite <- app_assoc | done].
Qed.

Lemma at_index_nat {A : Type} (arr : list A) (n : nat) :
  at_index arr (Z.of_nat n) = arr !! n.
Proof.
  unfold at_index. destruct (Z.ltb_spec (Z.of_nat n) 0) as [Hneg|Hpos]; [lia|].
  by rewrite Nat2Z.id.
Qed.

Lemma at_index_Some {A : Type} (arr : list A) (i : Z) (x : A) :
  at_index arr i = Some x -> (0 <= i)%Z /\ arr !! Z.to_nat i = Some x.
Proof.
  unfold at_index. destruct (Z.ltb_spec i 0) as [Hneg|Hpos]; [done|].
  intros Hx. split; [lia|done].
Qed.

(** ** Forecaster *)

Section ForecastFacts.
Local Open Scope float_scope.

(** The smoothing loop over [arr[1..]] is a left fold of the tail. *)
Lemma ewma_loop_fold (alpha : float) (pre xs : list float) (s : float) :
  forLoop_from (length xs) (Z.of_nat (length pre))
    (fun i s => ewmaStep alpha s (default nan (at_index (pre ++ xs) i))) s
  = fold_left (ewmaStep alpha) xs s.
Proof.
  revert pre s. induction xs as [|x xs IH]; intros pre s; [done|].
  simpl. rewrite at_index_nat.
  rewrite lookup_app_r by lia. rewrite Nat.sub_diag. simpl.
  specialize (IH (pre ++ [x]) (ewmaStep alpha s x)).
  rewrite length_app in IH. simpl in IH.
  rewrite <- app_assoc in IH. simpl in IH.
  rewrite <- IH. f_equal. lia.
Qed.

(** C6. For a non-empty input the forecaster seeds the moving average with
    the first element, folds the remaining elements with
    [s <- alpha*x + (1-alpha)*s] and returns [steps] copies of [round(s)];
    for the empty input the forecast is empty; for [10,20,30],
    [alpha = 0.25] and [steps = 3] the three values are the same (17). *)
Theorem simpleEwmaForecast_constant :
  (forall (x : float) (xs : list float) (alpha : float) (steps : Z),
      simpleEwmaForecast (x :: xs) alpha steps
      = replicate (Z.to_nat steps)
          (JS.Math_round (fold_left (fun s y => alpha * y + (1 - alpha) * s) xs x)))
  /\ (forall (alpha : float) (steps : Z), simpleEwmaForecast [] alpha steps = [])
  /\ simpleEwmaForecast [10; 20; 30] 0.25 3 = [17; 17; 17].
Proof.
  split; [|split].
  - intros x xs alpha steps. unfold simpleEwmaForecast, forLoop.
    change (length (x :: xs) =? 0)%nat with false. cbv iota.
    rewrite Z.sub_0_r, forLoop_from_push. simpl app.
    do 2 f_equal.
    simpl length.
    replace (Z.to_nat (Z.of_nat (S (length xs)) - 1)) with (length xs) by lia.
    exact (ewma_loop_fold alpha [x] xs x).
  - done.
  - reflexivity.
Qed.

End ForecastFacts.

(** ** Rule engine *)

Section RuleFacts.
Local Open Scope float_scope.

Lemma runDetection_buffers (st : State) :
  plasmaBuffer (snd (runDetection st)) = plasmaBuffer st
  /\ magBuffer (snd (runDetection st)) = magBuffer st.
Proof.
  unfold runDetection.
  destruct (0 <? length (forLoop 0 _ (detectAt st) []))%nat; by simpl.
Qed.

Lemma runDetection_new (st : State) :
  fst (runDetection st)
  = forLoop_from (length (plasmaBuffer st)) 0 (detectAt st) [].
Proof.
  unfold runDetection, forLoop. rewrite Z.sub_0_r, Nat2Z.id.
  by destruct (0 <? length (forLoop_from _ 0 (detectAt st) []))%nat.
Qed.

Lemma cmeDetect_state (st : State) : snd (cmeDetect st) = snd (runDetection st).
Proof. unfold cmeDetect. by destruct (runDetection st). Qed.

(** C10. A rule scan, also when run through the on-demand detect
    endpoint, leaves the plasma buffer and the magnetic-field buffer as
    they were: only the detection log can change. *)
Theorem runDetection_keeps_buffers (st : State) :
  plasmaBuffer (snd (runDetection st)) = plasmaBuffer st
  /\ magBuffer (snd (runDetection st)) = magBuffer st
  /\ plasmaBuffer (snd (cmeDetect st)) = plasmaBuffer st
  /\ magBuffer (snd (cmeDetect st)) = magBuffer st.
Proof.
  rewrite cmeDetect_state.
  destruct (runDetection_buffers st) as [Hp Hm]. by repeat split.
Qed.

Lemma readSample_Some plasma mag i p m s d b :
  at_index plasma i = Some p -> speed p = Some s -> density p = Some d ->
  at_index mag i = Some m -> bz m = Some b ->
  readSample plasma mag i = Some (mkCandidate p s d b (deltaVAt plasma i s)).
Proof.
  intros Hp Hs Hd Hm Hb. unfold readSample.
  rewrite Hp, Hs, Hd, Hm. simpl. by rewrite Hb.
Qed.

End RuleFacts.

(** ** Deduplication across scans *)

Section DedupFacts.

Lemma hasId_app (a b : list Detection) (i : string) :
  hasId (a ++ b) i = hasId a i || hasId b i.
Proof. unfold hasId. apply existsb_app. Qed.

Lemma id_buildDetection plasma mag i ident c :
  id (buildDetection plasma mag i ident c) = ident.
Proof.
  unfold buildDetection.
  by destruct (computeScoreAndSeverity _ _ _ _) as [[sc lbl] cls].
Qed.

Lemma hasId_built plasma mag i ident c (acc : list Detection) :
  hasId (acc ++ [buildDetection plasma mag i ident c]) ident = true.
Proof.
  rewrite hasId_app.
  assert (hasId [buildDetection plasma mag i ident c] ident = true) as ->.
  { unfold hasId. cbn [existsb]. by rewrite id_buildDetection, String.eqb_refl. }
  apply orb_true_r.
Qed.

(** The loop body either leaves [newDetections] alone or pushes one
    detection whose id is new to both lists. *)
Lemma detectAt_cases (st : State) (i : Z) (acc : list Detection) :
  detectAt st i acc = acc
  \/ exists c,
      candidateAt (plasmaBuffer st) (magBuffer st) i = Some c
      /\ hasId (detections st) (candidateId c) = false
      /\ hasId acc (candidateId c) = false
      /\ detectAt st i acc
         = acc ++ [buildDetection (plasmaBuffer st) (magBuffer st) i (candidateId c) c].
Proof.
  unfold detectAt.
  destruct (candidateAt (plasmaBuffer st) (magBuffer st) i) as [c|]; [|by left].
  fold (candidateId c).
  destruct (hasId (detections st) (candidateId c)) eqn:Hlog; [by left|].
  destruct (hasId acc (candidateId c)) eqn:Hacc; [by left|].
  right. by exists c.
Qed.

(** After the body ran at [i], the id of the candidate of [i] is known. *)
Lemma detectAt_records (st : State) (i : Z) (acc : list Detection) c :
  candidateAt (plasmaBuffer st) (magBuffer st) i = Some c ->
  hasId (detections st) (candidateId c) || hasId (detectAt st i acc) (candidateId c) = true.
Proof.
  intros Hc. unfold detectAt. rewrite Hc. fold (candidateId c).
  destruct (hasId (detections st) (candidateId c)) eqn:Hlog; [done|].
  destruct (hasId acc (candidateId c)) eqn:Hacc; simpl.
  - by rewrite Hacc.
  - apply hasId_built.
Qed.

Lemma detectAt_keeps (st : State) (i : Z) (acc : list Detection) (ident : string) :
  hasId acc ident = true -> hasId (detectAt st i acc) ident = true.
Proof.
  intros H. destruct (detectAt_cases st i acc) as [-> | (c & _ & _ & _ & ->)]; [done|].
  rewrite hasId_app, H. done.
Qed.

(** Every candidate of the scanned range ends up in the retained log or
    among the new detections. *)
Lemma scan_records (st : State) (n : nat) (i : Z) (acc : list Detection) :
  forall k c, (i <= k < i + Z.of_nat n)%Z ->
    candidateAt (plasmaBuffer st) (magBuffer st) k = Some c ->
    hasId (detections st) (candidateId c)
    || hasId (forLoop_from n i (detectAt st) acc) (candidateId c) = true.
Proof.
  induction n as [|n IH]; intros k c Hk Hc; [lia|].
  rewrite forLoop_from_snoc.
  destruct (decide (k = i + Z.of_nat n)%Z) as [->|Hne].
  - by apply detectAt_records.
  - specialize (IH k c ltac:(lia) Hc).
    apply orb_true_iff in IH. apply orb_true_iff.
    destruct IH as [IH|IH]; [by left|right]. by apply detectAt_keeps.
Qed.

(** New detections never repeat an id of the retained log. *)
Lemma scan_fresh (st : State) (n : nat) (i : Z) (acc : list Detection) :
  Forall (fun d => hasId (detections st) (id d) = false) acc ->
  Forall (fun d => hasId (detections st) (id d) = false)
    (forLoop_from n i (detectAt st) acc).
Proof.
  revert i acc. induction n as [|n IH]; intros i acc Hacc; [done|].
  simpl. apply IH.
  destruct (detectAt_cases st i acc) as [-> | (c & _ & Hlog & _ & ->)]; [done|].
  apply Forall_app. split; [done|].
  apply Forall_singleton. by rewrite id_buildDetection.
Qed.


Lemma lastN_all {A : Type} (n : nat) (l : list A) :
  length l <= n -> lastN n l = l.
Proof. intros H. unfold lastN. by replace (length l - n) with 0 by lia. Qed.



End DedupFacts.

(** ** The rule *)

Section RuleTheorem.
Local Open Scope float_scope.

(** C1. At an index where speed, density and bz are all non-null, the
    scan has a CME candidate exactly when
    [(shock && (highSpeed || highDensity)) || (highSpeed && highDensity && southBz)],
    with [highSpeed = speed > 500], [highDensity = density > 10],
    [southBz = bz < -10] and [shock = deltaV != null && deltaV > 100],
    [deltaV] being the look-back value the scan computed.  Without a
    candidate the loop body leaves the new detections as they are; with
    one, the id of the sample is in the log or among the new detections
    when the scan ends. *)
Theorem rule_fires_iff (st : State) (i : Z) p m (s d b : float) :
  at_index (plasmaBuffer st) i = Some p -> speed p = Some s -> density p = Some d ->
  at_index (magBuffer st) i = Some m -> bz m = Some b ->
  let deltaV := deltaVAt (plasmaBuffer st) i s in
  let highSpeed := JS.gt s 500 in
  let highDensity := JS.gt d 10 in
  let southBz := JS.lt b (-10) in
  let shock := match deltaV with Some dv => JS.gt dv 100 | None => false end in
  let fires :=
    (shock && (highSpeed || highDensity)) || (highSpeed && highDensity && southBz) in
  (is_Some (candidateAt (plasmaBuffer st) (magBuffer st) i) <-> fires = true)
  /\ (fires = false -> forall acc, detectAt st i acc = acc)
  /\ (fires = true ->
      hasId (detections st) (detectionId p s)
      || hasId (fst (runDetection st)) (detectionId p s) = true).
Proof.
  intros Hp Hs Hd Hm Hb deltaV highSpeed highDensity southBz shock fires.
  assert (Hcand : candidateAt (plasmaBuffer st) (magBuffer st) i
                  = if fires then Some (mkCandidate p s d b deltaV) else None).
  { unfold candidateAt. by rewrite (readSample_Some _ _ _ _ _ _ _ _ Hp Hs Hd Hm Hb). }
  split; [|split].
  - rewrite Hcand. destruct fires.
    + split; [done | by eexists].
    + split; [by intros [c Hc] | done].
  - intros Hno acc. unfold detectAt. by rewrite Hcand, Hno.
  - intros Hyes. rewrite Hyes in Hcand.
    destruct (at_index_Some _ _ _ Hp) as [Hpos Hlook].
    apply lookup_lt_Some in Hlook.
    rewrite runDetection_new.
    apply (scan_records st (length (plasmaBuffer st)) 0 [] i _ ltac:(lia) Hcand).
Qed.

Lemma rule_fires_iff_witness :
  is_Some (candidateAt (plasmaBuffer exampleNoLookback) (magBuffer exampleNoLookback) 0)
  /\ hasId (fst (runDetection exampleNoLookback)) "2024-05-10 17:00:00.000_600" = true.
Proof.
  destruct (rule_fires_iff exampleNoLookback 0 _ _ 600 12 (-12)
              eq_refl eq_refl eq_refl eq_refl eq_refl) as (Hiff & _ & Hrec).
  split; [exact (proj2 Hiff eq_refl) | exact (Hrec eq_refl)].
Defined.

(** The first example fires through the second disjunct, with no
    look-back value, and the scan records it. *)
Example example_second_disjunct :
  deltaVAt (plasmaBuffer exampleNoLookback) 0 600 = None
  /\ isCME 600 12 (-12) None = true
  /\ JS.gt 600 500 && JS.gt 12 10 && JS.lt (-12) (-10) = true
  /\ map id (fst (runDetection exampleNoLookback)) = ["2024-05-10 17:00:00.000_600"].
Proof. by vm_compute. Qed.

End RuleTheorem.


Example storm_rescan_ids :
  length (fst (runDetection (stormState 101))) = 101
  /\ length (detections (snd (runDetection (stormState 101)))) = 100
  /\ map id (fst (runDetection (snd (runDetection (stormState 101))))) = ["t0_600"].
Proof. by vm_compute. Qed.


(** ** Sample buffers *)

Section BufferFacts.

Lemma lastN_length {A : Type} (n : nat) (l : list A) :
  length (lastN n l) = Nat.min n (length l).
Proof. unfold lastN. rewrite length_drop. lia. Qed.

Lemma lastN_lastN_app {A : Type} (n : nat) (a b : list A) :
  lastN n (lastN n a ++ b) = lastN n (a ++ b).
Proof.
  destruct (decide (length a <= n)) as [Hle|Hgt].
  - by rewrite (lastN_all n a Hle).
  - unfold lastN at 1 3. rewrite !length_app, lastN_length.
    replace (Nat.min n (length a) + length b - n) with (length b) by lia.
    replace (length a + length b - n) with ((length a - n) + length b) by lia.
    rewrite <- drop_drop. unfold lastN.
    by rewrite (drop_app_le a b (length a - n)) by lia.
Qed.

Lemma shiftIfOver_push {A : Type} (l : list A) (x : A) :
  length l <= BUFFER_MAX ->
  shiftIfOver (l ++ [x]) = lastN BUFFER_MAX (l ++ [x]).
Proof.
  intros Hlen. unfold shiftIfOver, lastN. rewrite length_app. simpl length.
  destruct (Nat.ltb_spec BUFFER_MAX (length l + 1)) as [Hover|Hfit].
  - replace (length l + 1 - BUFFER_MAX) with 1 by lia.
    by destruct (l ++ [x]).
  - by replace (length l + 1 - BUFFER_MAX) with 0 by lia.
Qed.

(** What a batch does to buffers that respect the capacity. *)
Lemma appendBatch_buffers (byTime : gmap string MagSample)
  (rows : list PlasmaSample) (st : State) :
  length (plasmaBuffer st) <= BUFFER_MAX ->
  length (magBuffer st) <= BUFFER_MAX ->
  plasmaBuffer (fold_left (appendRow byTime) rows st)
  = lastN BUFFER_MAX (plasmaBuffer st ++ rows)
  /\ magBuffer (fold_left (appendRow byTime) rows st)
     = lastN BUFFER_MAX (magBuffer st ++ map (mergeRow byTime) rows)
  /\ detections (fold_left (appendRow byTime) rows st) = detections st.
Proof.
  revert st. induction rows as [|p rows IH]; intros st Hp Hm.
  - cbn [fold_left map]. rewrite !app_nil_r, !lastN_all by done. done.
  - cbn [fold_left map].
    assert (Hp1 : plasmaBuffer (appendRow byTime st p)
                  = lastN BUFFER_MAX (plasmaBuffer st ++ [p])).
    { unfold appendRow. cbn [plasmaBuffer]. by apply shiftIfOver_push. }
    assert (Hm1 : magBuffer (appendRow byTime st p)
                  = lastN BUFFER_MAX (magBuffer st ++ [mergeRow byTime p])).
    { unfold appendRow. cbn [magBuffer]. by apply shiftIfOver_push. }
    destruct (IH (appendRow byTime st p)) as (IHp & IHm & IHd).
    { rewrite Hp1, lastN_length. lia. }
    { rewrite Hm1, lastN_length. lia. }
    rewrite IHp, IHm, IHd, Hp1, Hm1.
    rewrite !lastN_lastN_app, <- !app_assoc. done.
Qed.

(** A row found under a key of the map carries that key as timestamp. *)
Lemma magByTime_lookup (magRows : list MagSample) (t : string) (m : MagSample) :
  magByTime magRows !! t = Some m -> mag_timeISO m = t.
Proof.
  unfold magByTime.
  assert (Hgen : forall acc : gmap string MagSample,
             (forall k v, acc !! k = Some v -> mag_timeISO v = k) ->
             forall k v, fold_left (fun acc m => <[mag_timeISO m := m]> acc) magRows acc !! k
                         = Some v -> mag_timeISO v = k).
  { induction magRows as [|r rows IH]; intros acc Hacc k v; simpl; [apply Hacc|].
    apply IH. intros k' v'. rewrite lookup_insert.
    case_decide; [naive_solver | apply Hacc]. }
  apply Hgen. intros k v. by rewrite lookup_empty.
Qed.

Lemma mergeRow_sameTime (magRows : list MagSample) (p : PlasmaSample) :
  sameTime p (mergeRow (magByTime magRows) p).
Proof.
  unfold sameTime, mergeRow.
  destruct (magByTime magRows !! timeISO p) as [m|] eqn:E; simpl; [|done].
  symmetry. by apply magByTime_lookup in E.
Qed.

Lemma appendBatch_invariant (st : State) plasmaRows magRows :
  bufferInvariant st -> bufferInvariant (appendBatch st plasmaRows magRows).
Proof.
  intros (Hlen & Hcap & Hal). unfold appendBatch.
  destruct (appendBatch_buffers (magByTime magRows) plasmaRows st Hcap ltac:(lia))
    as (Hp & Hm & _).
  unfold bufferInvariant. rewrite Hp, Hm, !lastN_length, !length_app, length_map.
  split; [lia|]. split; [lia|].
  unfold lastN. rewrite !length_app, length_map, <- Hlen.
  apply Forall2_drop, Forall2_app; [done|].
  apply Forall2_fmap_r, Forall_Forall2_diag, Forall_forall.
  intros p _. apply mergeRow_sameTime.
Qed.

Lemma runDetection_invariant (st : State) :
  bufferInvariant st -> bufferInvariant (snd (runDetection st)).
Proof.
  destruct (runDetection_buffers st) as (Hp & Hm).
  unfold bufferInvariant. by rewrite Hp, Hm.
Qed.

Lemma step_invariant (st : State) (op : Op) :
  bufferInvariant st -> bufferInvariant (step st op).
Proof.
  intros H. destruct op as [plasmaRows magRows|]; simpl.
  - unfold pollNOAA. by apply runDetection_invariant, appendBatch_invariant.
  - rewrite cmeDetect_state. by apply runDetection_invariant.
Qed.

Lemma run_invariant (ops : list Op) : bufferInvariant (run ops).
Proof.
  unfold run.
  assert (Hgen : forall st, bufferInvariant st -> bufferInvariant (fold_left step ops st)).
  { induction ops as [|op ops IH]; intros st H; simpl; [done|].
    by apply IH, step_invariant. }
  apply Hgen. unfold bufferInvariant, initial. simpl.
  split; [done|]. split; [lia | constructor].
Qed.

(** C2. In every state the server can reach, an append-batch leaves the
    plasma and the field sequence with the same length, at most the
    capacity of 3000; the same number [k] of oldest entries is dropped
    from both, so entry [i] of one still belongs with entry [i] of the
    other (they carry the same timestamp). *)
Theorem appendBatch_bounded_aligned (ops : list Op)
  (plasmaRows : list PlasmaSample) (magRows : list MagSample) :
  let st := run ops in
  let st' := appendBatch st plasmaRows magRows in
  length (plasmaBuffer st') = length (magBuffer st')
  /\ length (plasmaBuffer st') <= 3000
  /\ Forall2 sameTime (plasmaBuffer st') (magBuffer st')
  /\ exists k : nat,
      plasmaBuffer st' = drop k (plasmaBuffer st ++ plasmaRows)
      /\ magBuffer st'
         = drop k (magBuffer st ++ map (mergeRow (magByTime magRows)) plasmaRows).
Proof.
  intros st st'.
  pose proof (run_invariant ops) as Hinv. fold st in Hinv.
  pose proof (appendBatch_invariant st plasmaRows magRows Hinv) as (Hlen & Hcap & Hal).
  fold st' in Hlen, Hcap, Hal.
  repeat split; [done..|].
  destruct Hinv as (Hlen0 & Hcap0 & _).
  destruct (appendBatch_buffers (magByTime magRows) plasmaRows st Hcap0 ltac:(lia))
    as (Hp & Hm & _).
  exists (length (plasmaBuffer st ++ plasmaRows) - BUFFER_MAX).
  split; [exact Hp|].
  unfold st', appendBatch. rewrite Hm. unfold lastN.
  by rewrite !length_app, length_map, Hlen0.
Qed.

End BufferFacts.

(** ** Batches with an empty input list *)

Section EmptyInputs.

(** C8 as stated fails: with no field rows at all, a plasma row is still
    appended, together with a null-valued field row. *)
Lemma appendBatch_empty_field_rows_appends :
  ~ (forall (st : State) plasmaRows magRows,
        plasmaRows = [] \/ magRows = [] ->
        plasmaBuffer (appendBatch st plasmaRows magRows) = plasmaBuffer st
        /\ magBuffer (appendBatch st plasmaRows magRows) = magBuffer st).
Proof.
  intros H. destruct (H initial [oneRow] [] (or_intror eq_refl)) as [Hp _].
  vm_compute in Hp. discriminate Hp.
Qed.

(** C8 (amended). An append-batch with an empty list of plasma rows has
    no effect; with an empty list of field rows every plasma row is still
    appended, paired with a null-valued field row of its timestamp (the
    buffers keeping their last 3000 entries). *)
Theorem appendBatch_empty_inputs :
  (forall (st : State) (magRows : list MagSample), appendBatch st [] magRows = st)
  /\ (forall (ops : list Op) (plasmaRows : list PlasmaSample),
        let st := run ops in
        plasmaBuffer (appendBatch st plasmaRows [])
        = lastN 3000 (plasmaBuffer st ++ plasmaRows)
        /\ magBuffer (appendBatch st plasmaRows [])
           = lastN 3000 (magBuffer st ++ map (fun p => nullMag (timeISO p)) plasmaRows)
        /\ detections (appendBatch st plasmaRows []) = detections st).
Proof.
  split; [done|].
  intros ops plasmaRows st.
  destruct (run_invariant ops) as (Hlen & Hcap & _). fold st in Hlen, Hcap.
  destruct (appendBatch_buffers (magByTime []) plasmaRows st Hcap ltac:(lia))
    as (Hp & Hm & Hd).
  assert (Hnull : map (mergeRow (magByTime [])) plasmaRows
                  = map (fun p => nullMag (timeISO p)) plasmaRows).
  { apply map_ext. intros p. unfold mergeRow, magByTime. simpl.
    by rewrite lookup_empty. }
  rewrite Hnull in Hm.
  unfold appendBatch. by rewrite Hp, Hm, Hd.
Qed.

End EmptyInputs.

(** ** The look-back difference *)

Section DeltaVFacts.
Local Open Scope float_scope.

Lemma deltaVAt_lookback plasma (i : Z) (s sj : float) pj :
  at_index plasma (i - 30) = Some pj -> speed pj = Some sj ->
  deltaVAt plasma i s = Some (s - sj).
Proof.
  intros Hj Hs. unfold deltaVAt, DELTA_WINDOW.
  destruct (at_index_Some _ _ _ Hj) as [Hpos _].
  destruct (Z.leb_spec 0 (i - 30)) as [_|Hneg]; [|lia].
  by rewrite Hj, Hs.
Qed.

Lemma deltaVAt_no_lookback plasma (i : Z) (s : float) :
  at_index plasma (i - 30) = None -> deltaVAt plasma i s = None.
Proof.
  intros Hj. unfold deltaVAt, DELTA_WINDOW. rewrite Hj.
  by destruct (0 <=? i - 30)%Z.
Qed.

(** When the sample 30 steps back exists but has a null speed, the
    subtraction reads the null as 0. *)
Lemma deltaVAt_null_lookback plasma (i : Z) (s : float) pj :
  at_index plasma (i - 30) = Some pj -> speed pj = None ->
  deltaVAt plasma i s = Some (s - 0).
Proof.
  intros Hj Hs. unfold deltaVAt, DELTA_WINDOW.
  destruct (at_index_Some _ _ _ Hj) as [Hpos _].
  destruct (Z.leb_spec 0 (i - 30)) as [_|Hneg]; [|lia].
  by rewrite Hj, Hs.
Qed.

(** C3, at the failing input: the speed 30 steps back is null, yet the
    scan computes [deltaV = 450 - null = 450] instead of null, takes it
    for a shock and records a detection. *)
Theorem deltaV_null_lookback_is_speed :
  (at_index (plasmaBuffer nullLookback) (30 - 30) ≫= speed) = None
  /\ deltaVAt (plasmaBuffer nullLookback) 30 450 = Some 450
  /\ map (fun d => (id d, d_deltaV d)) (fst (runDetection nullLookback))
     = [("t30_450"%string, Some 450)]
  /\ isCME 450 12 (-2) None = false.
Proof. by vm_compute. Qed.

(** C7 as stated fails: the sample does not fire. *)
Lemma shock_only_example_does_not_fire :
  deltaVAt (plasmaBuffer shockOnly) 30 450 = Some 150
  /\ ~ is_Some (candidateAt (plasmaBuffer shockOnly) (magBuffer shockOnly) 30)
  /\ fst (runDetection shockOnly) = [].
Proof.
  split; [by vm_compute|]. split; [|by vm_compute].
  assert (E : candidateAt (plasmaBuffer shockOnly) (magBuffer shockOnly) 30 = None)
    by (by vm_compute).
  rewrite E. by intros [c Hc].
Qed.

(** C7 (amended). A sample with speed 450, density 3 and bz -2 whose
    sample 30 steps back has speed 300 gets [deltaV = 150]; the shock
    condition holds, but neither the high-speed nor the high-density
    condition does, so neither disjunct holds and the rule does not
    fire. *)
Theorem shock_without_speed_or_density plasma mag (i : Z) p m pj :
  at_index plasma i = Some p -> speed p = Some 450 -> density p = Some 3 ->
  at_index mag i = Some m -> bz m = Some (-2) ->
  at_index plasma (i - 30) = Some pj -> speed pj = Some 300 ->
  deltaVAt plasma i 450 = Some 150
  /\ JS.gt 150 100 = true
  /\ JS.gt 450 500 = false
  /\ JS.gt 3 10 = false
  /\ candidateAt plasma mag i = None.
Proof.
  intros Hp Hs Hd Hm Hb Hj Hsj.
  assert (HdV : deltaVAt plasma i 450 = Some 150).
  { by rewrite (deltaVAt_lookback plasma i 450 300 pj Hj Hsj). }
  repeat split; [done..|].
  unfold candidateAt.
  rewrite (readSample_Some _ _ _ _ _ _ _ _ Hp Hs Hd Hm Hb), HdV. done.
Qed.

Lemma shock_without_speed_or_density_witness :
  deltaVAt (plasmaBuffer shockOnly) 30 450 = Some 150
  /\ JS.gt 150 100 = true
  /\ JS.gt 450 500 = false
  /\ JS.gt 3 10 = false
  /\ candidateAt (plasmaBuffer shockOnly) (magBuffer shockOnly) 30 = None.
Proof.
  exact (shock_without_speed_or_density (plasmaBuffer shockOnly)
           (magBuffer shockOnly) 30 _ _ _
           eq_refl eq_refl eq_refl eq_refl eq_refl eq_refl eq_refl).
Defined.

End DeltaVFacts.

(** ** Anomaly check *)

Section AnomalyFacts.
Local Open Scope float_scope.

Lemma seqZ_to_nat (m n : Z) : seqZ m (Z.of_nat (Z.to_nat n)) = seqZ m n.
Proof. unfold seqZ. by rewrite Nat2Z.id. Qed.

(** The helper of the source computes exactly that z-score. *)
Lemma zCheck_spec_zScore (get : Z -> option float) (i : Z) :
  z <$> zCheck get (Z.max 0 (i - WIN)) i = spec_zScore get i.
Proof.
  unfold zCheck, spec_zScore, forLoop, WIN.
  rewrite forLoop_from_collect, seqZ_to_nat. simpl app.
  fold (spec_window get i).
  destruct (length (spec_window get i) <? 8)%nat; [done|].
  destruct (get i) as [cur|]; [|done].
  simpl. unfold spec_std, spec_mean, JS.orElse, JS.truthy, JS.Math_sqrt.
  by destruct (PrimFloat.is_zero _ || PrimFloat.is_nan _).
Qed.

Lemma triggered_spec_triggered (get : Z -> option float) (i : Z) :
  triggered (zCheck get (Z.max 0 (i - WIN)) i) = spec_triggered get i.
Proof.
  unfold spec_triggered. rewrite <- zCheck_spec_zScore. unfold triggered.
  by destruct (zCheck get _ i).
Qed.

Lemma checkMetric_flag (name : string) (r : option ZResult) (ts : list Trigger) :
  fst (checkMetric name r ts) = triggered r.
Proof.
  unfold checkMetric, triggered. destruct r as [r|]; [|done].
  by destruct (JS.gt _ 3).
Qed.

Lemma checkMetric_length (name : string) (r : option ZResult) (ts : list Trigger) :
  length (snd (checkMetric name r ts))
  = (length ts + if triggered r then 1 else 0)%nat.
Proof.
  unfold checkMetric, triggered. destruct r as [r|]; [|simpl; lia].
  destruct (JS.gt _ 3); simpl; [|lia].
  by rewrite length_app.
Qed.

(** C5 (amended). For every target index and each of speed, bz and
    density, the check takes the mean and the population standard
    deviation of the non-null values in [[max(0,i-60), i)]; there is no
    result with fewer than 8 of them; a standard deviation of zero is
    replaced by [1e-5] (a positive one is kept, however small); the
    metric is triggered exactly when [|z| > 3] for
    [z = (current - mean) / std]; [isAnomaly] is true exactly when one of
    the three metrics was triggered. *)
Theorem detectAnomalyAt_zscore plasma mag (i : Z) :
  let a := detectAnomalyAt plasma mag i in
  a_speed a = spec_triggered (fun j => at_index plasma j ≫= speed) i
  /\ a_bz a = spec_triggered (fun j => at_index mag j ≫= bz) i
  /\ a_density a = spec_triggered (fun j => at_index plasma j ≫= density) i
  /\ isAnomaly a = a_speed a || a_bz a || a_density a
  /\ length (triggers a)
     = ((if a_speed a then 1 else 0) + (if a_bz a then 1 else 0)
        + (if a_density a then 1 else 0))%nat.
Proof.
  intros a. unfold a, detectAnomalyAt.
  set (zSpeed := zCheck (fun j => at_index plasma j ≫= speed) _ i).
  set (zBz := zCheck (fun j => at_index mag j ≫= bz) _ i).
  set (zD := zCheck (fun j => at_index plasma j ≫= density) _ i).
  pose proof (checkMetric_flag "speed" zSpeed []) as Hf1.
  pose proof (checkMetric_length "speed" zSpeed []) as Hl1.
  destruct (checkMetric "speed" zSpeed []) as [f1 t1].
  pose proof (checkMetric_flag "bz" zBz t1) as Hf2.
  pose proof (checkMetric_length "bz" zBz t1) as Hl2.
  destruct (checkMetric "bz" zBz t1) as [f2 t2].
  pose proof (checkMetric_flag "density" zD t2) as Hf3.
  pose proof (checkMetric_length "density" zD t2) as Hl3.
  destruct (checkMetric "density" zD t2) as [f3 t3].
  cbn [a_speed a_bz a_density isAnomaly triggers fst snd] in *.
  subst f1 f2 f3. unfold zSpeed, zBz, zD in *.
  rewrite !triggered_spec_triggered in *.
  split; [done|]. split; [done|]. split; [done|].
  rewrite Hl3, Hl2, Hl1. simpl length.
  destruct (spec_triggered _ i), (spec_triggered _ i), (spec_triggered _ i); done.
Qed.

(** C5 as stated fails on the floor: the standard deviation of the
    window is about 2.52e-6 and is used as it is, not raised to [1e-5];
    with it the bz metric is triggered (z is about 5.67), whereas the
    deviation from the mean is less than 3 times [1e-5]. *)
Lemma small_deviation_is_not_floored :
  ((fun r => JS.lt (sd r) 0.00001) <$> zCheck tinySpreadBz 0 8) = Some true
  /\ ~ (forall r, zCheck tinySpreadBz 0 8 = Some r -> JS.le 0.00001 (sd r) = true)
  /\ a_bz (detectAnomalyAt (fst tinySpread) (snd tinySpread) 8) = true
  /\ JS.gt (PrimFloat.abs ((0x1p-16 - spec_mean (spec_window tinySpreadBz 8)) / 0.00001)) 3
     = false.
Proof.
  split; [by vm_compute|]. split; [|split; by vm_compute].
  intros H.
  destruct (zCheck tinySpreadBz 0 8) as [r|] eqn:E; [|by vm_compute in E].
  specialize (H r eq_refl).
  vm_compute in E. injection E as <-. by vm_compute in H.
Qed.

End AnomalyFacts.

(** ** Export limit *)

Section ExportFacts.
Local Open Scope float_scope.

(** A number above zero is truthy. *)
Lemma positive_truthy (x : float) : JS.gt x 0 = true -> JS.truthy x = true.
Proof.
  unfold JS.gt, JS.truthy, is_zero, is_nan.
  rewrite FloatAxioms.ltb_spec, !FloatAxioms.eqb_spec. unfold SFltb, SFeqb.
  change (Prim2SF 0) with (S754_zero false).
  destruct (Prim2SF x) as [sx|sx| |sx mx ex]; simpl; try destruct sx; try done.
  intros _. by rewrite Z.compare_refl, Pos.compare_cont_refl.
Qed.

Lemma exportLimit_truthy (q : float) :
  JS.truthy q = true ->
  exportLimit q = if JS.gt q 50000 then 50000 else q.
Proof.
  intros Ht. unfold exportLimit, JS.orElse. rewrite Ht.
  unfold JS.truthy in Ht. apply negb_true_iff, orb_false_iff in Ht.
  destruct Ht as [_ Hnan].
  unfold JS.Math_min, JS.gt. rewrite Hnan.
  change (is_nan 50000) with false. change (get_sign 50000) with false.
  simpl. by destruct (50000 <? q), (q <? 50000).
Qed.

Lemma toIntegerOrInfinity_opp (x : float) (n : Z) :
  toIntegerOrInfinity x = Finite n -> toIntegerOrInfinity (- x) = Finite (- n).
Proof.
  unfold toIntegerOrInfinity. rewrite FloatAxioms.opp_spec.
  destruct (Prim2SF x) as [sx|sx| |sx mx ex]; simpl.
  - by intros [= <-].
  - by destruct sx.
  - by intros [= <-].
  - intros [= <-]. f_equal. destruct sx; simpl; lia.
Qed.

(** [arr.slice(-limit)] when the limit truncates to a positive integer. *)
Lemma slice_opp_lastN {A : Type} (arr : list A) (limit : float) (n : Z) :
  toIntegerOrInfinity limit = Finite n -> (0 < n)%Z ->
  slice arr (- limit) = lastN (Z.to_nat n) arr.
Proof.
  intros Hn Hpos. unfold slice, lastN.
  rewrite (toIntegerOrInfinity_opp _ _ Hn).
  destruct (Z.ltb_spec (- n) 0) as [_|Hge]; [|lia].
  f_equal. lia.
Qed.

(** C9 (amended). The export never rejects a limit: an absent, zero or
    non-numeric limit is replaced by the default 1000, a limit above
    50,000 becomes 50,000 and any other positive limit is used as it is;
    whenever the effective limit truncates to an integer [n >= 1], the
    rows returned from the in-memory log are its [n] most recent
    detections (all of them when there are fewer). *)
Theorem export_limit_clamped_above (st : State) (q : float) :
  (JS.truthy q = false -> exportLimit q = 1000)
  /\ (JS.gt q 0 = true -> exportLimit q = if JS.gt q 50000 then 50000 else q)
  /\ (forall n : Z,
        toIntegerOrInfinity (exportLimit q) = Finite n -> (0 < n)%Z ->
        exportJsonRows [] st q = lastN (Z.to_nat n) (detections st)
        /\ exportCsvRows st q = lastN (Z.to_nat n) (detections st)
        /\ length (exportCsvRows st q) <= Z.to_nat n).
Proof.
  split; [|split].
  - intros Hf. unfold exportLimit, JS.orElse. by rewrite Hf.
  - intros Hpos. by apply exportLimit_truthy, positive_truthy.
  - intros n Hn Hpos.
    assert (E : exportCsvRows st q = lastN (Z.to_nat n) (detections st)).
    { unfold exportCsvRows. by apply slice_opp_lastN. }
    split; [|split]; [exact E | exact E |].
    rewrite E, lastN_length. lia.
Qed.

Lemma export_limit_clamped_above_witness :
  (JS.gt 60000 0 = true /\ exportLimit 60000 = 50000)
  /\ (toIntegerOrInfinity (exportLimit 3) = Finite 3
      /\ map id (exportCsvRows tenDetections 3) = ["t7_600"; "t8_600"; "t9_600"]
      /\ length (exportCsvRows tenDetections 3) <= 3).
Proof.
  destruct (export_limit_clamped_above tenDetections 60000) as (_ & Hbig & _).
  destruct (export_limit_clamped_above tenDetections 3) as (_ & _ & Hrows).
  destruct (Hrows 3%Z eq_refl eq_refl) as (_ & Hcsv & Hlen).
  split; [split; [reflexivity | exact (Hbig eq_refl)] |].
  split; [reflexivity|]. split; [|exact Hlen].
  rewrite Hcsv. reflexivity.
Defined.

(** C9 as stated fails for negative limits: [-2] is neither replaced by
    the default nor clamped, and the export then returns all but the two
    oldest detections, eight rows. *)
Lemma negative_limit_is_not_clamped :
  JS.lt (-2) 0 = true
  /\ exportLimit (-2) = -2
  /\ map id (exportCsvRows tenDetections (-2))
     = ["t2_600"; "t3_600"; "t4_600"; "t5_600"; "t6_600"; "t7_600"; "t8_600"; "t9_600"]
  /\ exportJsonRows [] tenDetections (-2) = exportCsvRows tenDetections (-2).
Proof. by vm_compute. Qed.

End ExportFacts.

(** * Further properties *)

(** ** Order of binary64 values *)

Section FloatOrder.
Local Open Scope float_scope.

Ltac sf_cmp :=
  repeat match goal with
  | |- context [Pos.compare_cont Eq ?a ?b] =>
      change (Pos.compare_cont Eq a b) with (Pos.compare a b)
  | H : context [Pos.compare_cont Eq ?a ?b] |- _ =>
      change (Pos.compare_cont Eq a b) with (Pos.compare a b) in H
  end;
  repeat match goal with
  | |- context [(?a ?= ?b)%Z] => destruct (Z.compare_spec a b)
  | H : context [(?a ?= ?b)%Z] |- _ => destruct (Z.compare_spec a b)
  | |- context [(?a ?= ?b)%positive] => destruct (Pos.compare_spec a b)
  | H : context [(?a ?= ?b)%positive] |- _ => destruct (Pos.compare_spec a b)
  end; simpl in *; try congruence; try lia.

Lemma SFcompare_antisym (x y : spec_float) :
  SFcompare y x = option_map CompOpp (SFcompare x y).
Proof.
  destruct x as [sx|sx| |sx mx ex], y as [sy|sy| |sy my ey]; simpl;
    try destruct sx; try destruct sy; try reflexivity; sf_cmp.
Qed.

Lemma SFcompare_chain (x y z : spec_float) (c1 c2 : comparison) :
  SFcompare x y = Some c1 -> SFcompare y z = Some c2 ->
  c1 <> Gt -> c2 <> Gt -> SFcompare x z = Some (chain c1 c2).
Proof.
  destruct x as [sx|sx| |sx mx ex], y as [sy|sy| |sy my ey], z as [sz|sz| |sz mz ez];
    simpl; try destruct sx; try destruct sy; try destruct sz; simpl;
    try congruence; destruct c1, c2; try congruence; intros H1 H2 _ _; f_equal;
    injection H1 as H1; injection H2 as H2; unfold chain; sf_cmp.
Qed.

Lemma SFcompare_refl (x : spec_float) :
  x <> S754_nan -> SFcompare x x = Some Eq.
Proof.
  destruct x as [sx|sx| |sx mx ex]; simpl; try destruct sx; try done; intros _.
  - by rewrite Z.compare_refl, Pos.compare_cont_refl.
  - by rewrite Z.compare_refl, Pos.compare_cont_refl.
Qed.

Lemma SFcompare_None (x y : spec_float) :
  SFcompare x y = None <-> x = S754_nan \/ y = S754_nan.
Proof.
  destruct x as [sx|sx| |sx mx ex], y as [sy|sy| |sy my ey]; simpl;
    try destruct sx; try destruct sy; split; intros H; try done;
    try (by left); try (by right); by destruct H.
Qed.

Lemma is_nan_Prim2SF (x : float) : is_nan x = true <-> Prim2SF x = S754_nan.
Proof.
  unfold is_nan. rewrite FloatAxioms.eqb_spec. unfold SFeqb.
  destruct (Prim2SF x) as [sx|sx| |sx mx ex] eqn:E.
  - by rewrite SFcompare_refl.
  - by rewrite SFcompare_refl.
  - done.
  - by rewrite SFcompare_refl.
Qed.

Lemma ltb_leb (a b : float) : (a <? b) = true -> (a <=? b) = true.
Proof.
  rewrite FloatAxioms.ltb_spec, FloatAxioms.leb_spec. unfold SFltb, SFleb.
  by destruct (SFcompare (Prim2SF a) (Prim2SF b)) as [[]|].
Qed.

Lemma ltb_trans (a b c : float) :
  (a <? b) = true -> (b <? c) = true -> (a <? c) = true.
Proof.
  rewrite !FloatAxioms.ltb_spec. unfold SFltb.
  destruct (SFcompare (Prim2SF a) (Prim2SF b)) as [[]|] eqn:E1; try done.
  destruct (SFcompare (Prim2SF b) (Prim2SF c)) as [[]|] eqn:E2; try done.
  intros _ _. by rewrite (SFcompare_chain _ _ _ _ _ E1 E2).
Qed.

Lemma ltb_leb_trans (a b c : float) :
  (a <? b) = true -> (b <=? c) = true -> (a <? c) = true.
Proof.
  rewrite !FloatAxioms.ltb_spec, FloatAxioms.leb_spec. unfold SFltb, SFleb.
  destruct (SFcompare (Prim2SF a) (Prim2SF b)) as [[]|] eqn:E1; try done.
  destruct (SFcompare (Prim2SF b) (Prim2SF c)) as [[]|] eqn:E2; try done;
    intros _ _; by rewrite (SFcompare_chain _ _ _ _ _ E1 E2).
Qed.

Lemma leb_antisym_ltb (a b : float) : (a <=? b) = true -> (b <? a) = false.
Proof.
  rewrite FloatAxioms.leb_spec, FloatAxioms.ltb_spec. unfold SFleb, SFltb.
  rewrite (SFcompare_antisym (Prim2SF a) (Prim2SF b)).
  by destruct (SFcompare (Prim2SF a) (Prim2SF b)) as [[]|].
Qed.

(** Two numbers are comparable unless one of them is [NaN]. *)
Lemma not_ltb_leb (a b : float) :
  is_nan a = false -> is_nan b = false -> (a <? b) = false -> (b <=? a) = true.
Proof.
  intros Ha Hb.
  rewrite FloatAxioms.leb_spec, FloatAxioms.ltb_spec. unfold SFleb, SFltb.
  rewrite (SFcompare_antisym (Prim2SF a) (Prim2SF b)).
  destruct (SFcompare (Prim2SF a) (Prim2SF b)) as [[]|] eqn:E; try done.
  apply SFcompare_None in E. destruct E as [E|E]; apply is_nan_Prim2SF in E; congruence.
Qed.

Lemma ltb_not_nan (a b : float) :
  (a <? b) = true -> is_nan a = false /\ is_nan b = false.
Proof.
  rewrite FloatAxioms.ltb_spec. unfold SFltb.
  destruct (SFcompare (Prim2SF a) (Prim2SF b)) as [c|] eqn:E; [|done].
  intros _.
  split; apply not_true_is_false; intros H; apply is_nan_Prim2SF in H;
    rewrite H in E; simpl in E; [done|]; by destruct (Prim2SF a).
Qed.

End FloatOrder.

(** ** Helpers of the detector *)

Section HelperFacts.
Local Open Scope float_scope.

(** X1. An arrival estimate exists exactly for a speed above zero: a zero,
    negative or [NaN] speed gives [null], every other speed gives
    [Math.round(AU / speed / 3600)]. *)
Theorem forecastArrivalHours_positive (s : float) :
  forecastArrivalHours s
  = if JS.gt s 0 then Some (JS.Math_round (149597870.7 / s / 3600)) else None.
Proof.
  unfold forecastArrivalHours.
  assert (E : negb (JS.truthy s) || JS.le s 0 = negb (JS.gt s 0)).
  { unfold JS.truthy, JS.le, JS.gt, is_zero, is_nan.
    rewrite !FloatAxioms.eqb_spec, FloatAxioms.leb_spec, FloatAxioms.ltb_spec.
    unfold SFeqb, SFleb, SFltb. change (Prim2SF 0) with (S754_zero false).
    destruct (Prim2SF s) as [sx|sx| |sx mx ex]; simpl; try destruct sx; simpl;
      rewrite ?Z.compare_refl, ?Pos.compare_cont_refl; done. }
  rewrite E. by destruct (JS.gt s 0).
Qed.

Lemma gt_le_trans (t s1 s2 : float) :
  JS.gt s1 t = true -> JS.le s1 s2 = true -> JS.gt s2 t = true.
Proof. unfold JS.gt, JS.le. apply ltb_leb_trans. Qed.

(** X2. The intensity bucket is monotone in the speed: a speed that is not
    smaller never gets a lower bucket (Nominal, Mild, Moderate, Strong,
    Very Strong). *)
Theorem intensityFromSpeed_monotone (s1 s2 : float) :
  JS.le s1 s2 = true ->
  intensityRank (intensityFromSpeed s1) <= intensityRank (intensityFromSpeed s2).
Proof.
  intros Hle. unfold intensityFromSpeed.
  pose proof (fun t H => gt_le_trans t s1 s2 H Hle) as Hup.
  destruct (JS.gt s1 3000) eqn:E1.
  { rewrite (Hup _ E1). done. }
  destruct (JS.gt s1 1500) eqn:E2.
  { rewrite (Hup _ E2). destruct (JS.gt s2 3000); vm_compute; lia. }
  destruct (JS.gt s1 1200) eqn:E3.
  { rewrite (Hup _ E3). destruct (JS.gt s2 3000), (JS.gt s2 1500); vm_compute; lia. }
  destruct (JS.gt s1 400) eqn:E4.
  { rewrite (Hup _ E4).
    destruct (JS.gt s2 3000), (JS.gt s2 1500), (JS.gt s2 1200); vm_compute; lia. }
  change (intensityRank "Nominal") with 0%nat. lia.
Qed.

Lemma intensityFromSpeed_monotone_witness :
  JS.le 450 700 = true
  /\ intensityRank (intensityFromSpeed 450) <= intensityRank (intensityFromSpeed 700).
Proof.
  split; [reflexivity|]. exact (intensityFromSpeed_monotone 450 700 eq_refl).
Defined.

(** X3. The two severity scales never contradict each other: class "crit"
    comes only with label Strong or Moderate, class "info" only with
    Nominal or Mild, and label Nominal only with class "info". *)
Theorem severity_scales_agree (speed density bz deltaV : option float) :
  let label := snd (fst (computeScoreAndSeverity speed density bz deltaV)) in
  let class := snd (computeScoreAndSeverity speed density bz deltaV) in
  (class = "crit" -> label = "Strong" \/ label = "Moderate")
  /\ (class = "info" -> label = "Nominal" \/ label = "Mild")
  /\ (label = "Nominal" -> class = "info").
Proof.
  unfold computeScoreAndSeverity. cbn zeta.
  set (score := JS.Math_max 0 (JS.Math_min 1 _)).
  cbn [fst snd].
  assert (H1 : JS.gt score 0.75 = true -> JS.gt score 0.6 = true).
  { unfold JS.gt. by apply ltb_trans. }
  assert (H2 : JS.gt score 0.6 = true -> JS.gt score 0.5 = true).
  { unfold JS.gt. by apply ltb_trans. }
  assert (H3 : JS.gt score 0.5 = true -> JS.gt score 0.3 = true).
  { unfold JS.gt. by apply ltb_trans. }
  assert (H4 : JS.gt score 0.3 = true -> JS.gt score 0.25 = true).
  { unfold JS.gt. by apply ltb_trans. }
  destruct (JS.gt score 0.75) eqn:E75; destruct (JS.gt score 0.6) eqn:E6;
    destruct (JS.gt score 0.5) eqn:E5; destruct (JS.gt score 0.3) eqn:E3;
    destruct (JS.gt score 0.25) eqn:E25;
    try (specialize (H1 eq_refl)); try (specialize (H2 eq_refl));
    try (specialize (H3 eq_refl)); try (specialize (H4 eq_refl));
    try discriminate;
    (split; [|split]); intros H; try discriminate H; auto.
Qed.

Lemma clamp01_cases (v : float) :
  is_nan v = false ->
  clamp01 v = if 1 <? v then 1 else if 0 <? v then v else 0.
Proof.
  intros Hnan. unfold clamp01, JS.Math_min.
  change (is_nan 1) with false. rewrite Hnan. cbn [orb].
  change (get_sign 1) with false.
  destruct (1 <? v) eqn:E1; [by vm_compute|].
  cbv delta [JS.number].
  assert (Hmin : (if v <? 1 then v else v) = v) by (by destruct (v <? 1)).
  rewrite Hmin.
  unfold JS.Math_max. change (is_nan 0) with false. rewrite Hnan. cbn [orb].
  change (get_sign 0) with false.
  destruct (0 <? v); [done|]. by destruct (v <? 0).
Qed.

(** X4. [clamp01] of a number that is not [NaN] lies between 0 and 1. *)
Theorem clamp01_range (v : float) :
  is_nan v = false ->
  JS.le 0 (clamp01 v) = true /\ JS.le (clamp01 v) 1 = true.
Proof.
  intros Hnan. rewrite (clamp01_cases v Hnan). unfold JS.le.
  destruct (1 <? v) eqn:E1; [by vm_compute|].
  destruct (0 <? v) eqn:E0; [|by vm_compute].
  split; [by apply ltb_leb | by apply not_ltb_leb].
Qed.

Lemma clamp01_range_witness :
  is_nan 1.7 = false
  /\ JS.le 0 (clamp01 1.7) = true /\ JS.le (clamp01 1.7) 1 = true.
Proof.
  split; [reflexivity|]. exact (clamp01_range 1.7 eq_refl).
Defined.

(** X5. The effective export limit never exceeds 50,000, whatever the
    query holds. *)
Theorem exportLimit_at_most (q : float) : JS.le (exportLimit q) 50000 = true.
Proof.
  destruct (JS.truthy q) eqn:Ht.
  - rewrite (exportLimit_truthy q Ht).
    destruct (JS.gt q 50000) eqn:E; [by vm_compute|].
    unfold JS.truthy in Ht. apply negb_true_iff, orb_false_iff in Ht.
    destruct Ht as [_ Hnan].
    unfold JS.le. by apply not_ltb_leb.
  - unfold exportLimit, JS.orElse. rewrite Ht. by vm_compute.
Qed.

Lemma forLoop_from_fixed {A : Type} (n : nat) (i : Z) (body : Z -> A -> A) (acc : A) :
  (forall j, (i <= j < i + Z.of_nat n)%Z -> body j acc = acc) ->
  forLoop_from n i body acc = acc.
Proof.
  revert i. induction n as [|n IH]; intros i H; [done|].
  simpl. rewrite H by lia. apply IH. intros j Hj. apply H. lia.
Qed.

(** A field that does not point south adds nothing to the integral. *)
Lemma northward_adds_nothing (b : float) :
  JS.le 0 b = true -> JS.Math_max 0 (- b) = 0.
Proof.
  intros Hb. unfold JS.Math_max.
  assert (H : is_nan (- b) = false /\ (0 <? - b) = false).
  { unfold JS.le in Hb. unfold is_nan.
    rewrite FloatAxioms.leb_spec in Hb.
    rewrite FloatAxioms.eqb_spec, FloatAxioms.ltb_spec, FloatAxioms.opp_spec.
    unfold SFleb in Hb. unfold SFeqb, SFltb.
    change (Prim2SF 0) with (S754_zero false) in *.
    destruct (Prim2SF b) as [sx|sx| |sx mx ex]; simpl in *; try destruct sx;
      simpl in *; rewrite ?Z.compare_refl, ?Pos.compare_cont_refl; done. }
  destruct H as [-> ->]. change (is_nan 0) with false.
  change (get_sign 0) with false. cbn [orb]. by destruct (- b <? 0).
Qed.

(** X6. When no field sample of the window points south (every bz there
    is null or at least 0), the southward-Bz integral is 0. *)
Theorem computeBzIntegral_northward (magBuf : list MagSample) (idx w : Z) :
  (forall i m b,
      (Z.max 0 (idx - w + 1) <= i <= idx)%Z ->
      at_index magBuf i = Some m -> bz m = Some b -> JS.le 0 b = true) ->
  computeBzIntegral magBuf idx w = 0.
Proof.
  intros Hnorth. unfold computeBzIntegral.
  destruct (length magBuf =? 0)%nat; [done|].
  unfold forLoop. rewrite forLoop_from_fixed; [by vm_compute|].
  intros j Hj.
  destruct (at_index magBuf j) as [m|] eqn:Em; simpl; [|done].
  destruct (bz m) as [b|] eqn:Eb; [|done].
  rewrite (northward_adds_nothing b); [by vm_compute|].
  apply (Hnorth j m b); [lia|done..].
Qed.

Lemma computeBzIntegral_northward_witness :
  computeBzIntegral
    [mkMag "t0" None None (Some 3); mkMag "t1" None None None;
     mkMag "t2" None None (Some 0)] 2 60 = 0.
Proof.
  apply computeBzIntegral_northward.
  intros i m b Hi Hm Hb.
  assert (Hcases : i = 0%Z \/ i = 1%Z \/ i = 2%Z) by lia.
  destruct Hcases as [-> | [-> | ->]]; vm_compute in Hm; injection Hm as <-;
    vm_compute in Hb; try discriminate Hb; injection Hb as <-; reflexivity.
Defined.

End HelperFacts.

(** ** What a scan creates *)

Section ScanFacts.
Local Open Scope float_scope.

Lemma hasId_true (ds : list Detection) (i : string) :
  hasId ds i = true <-> i ∈ id <$> ds.
Proof.
  unfold hasId. induction ds as [|d ds IH]; simpl.
  - split; [done|]. by intros H%elem_of_nil.
  - rewrite orb_true_iff, IH, elem_of_cons, String.eqb_eq.
    split; (intros [H|H]; [left | right]); done.
Qed.

Lemma hasId_false (ds : list Detection) (i : string) :
  hasId ds i = false <-> i ∉ id <$> ds.
Proof.
  rewrite <- hasId_true. by destruct (hasId ds i).
Qed.

(** What holds of a sample when the rule fires at its index. *)
Lemma candidateAt_inv plasma mag (k : Z) (c : Candidate) :
  candidateAt plasma mag k = Some c ->
  exists m,
    at_index plasma k = Some (c_sample c)
    /\ at_index mag k = Some m
    /\ speed (c_sample c) = Some (c_speed c)
    /\ density (c_sample c) = Some (c_density c)
    /\ bz m = Some (c_bz c)
    /\ c_deltaV c = deltaVAt plasma k (c_speed c)
    /\ isCME (c_speed c) (c_density c) (c_bz c) (c_deltaV c) = true.
Proof.
  unfold candidateAt, readSample.
  destruct (at_index plasma k) as [p|] eqn:Ep; [|done].
  destruct (speed p) as [s|] eqn:Es; [|done].
  destruct (density p) as [d|] eqn:Ed; [|done].
  destruct (at_index mag k) as [m|] eqn:Em; simpl; [|done].
  destruct (bz m) as [b|] eqn:Eb; [|done].
  cbn [c_speed c_density c_bz c_deltaV].
  destruct (isCME s d b (deltaVAt plasma k s)) eqn:Ef; [|done].
  intros [= <-]. simpl. by exists m.
Qed.

(** The sample fields a detection record copies. *)
Lemma buildDetection_fields plasma mag (k : Z) (ident : string) (c : Candidate) :
  let d := buildDetection plasma mag k ident c in
  id d = ident /\ d_timeISO d = timeISO (c_sample c)
  /\ d_speed d = c_speed c /\ d_density d = c_density c /\ d_bz d = c_bz c
  /\ d_deltaV d = JS.Math_round <$> c_deltaV c
  /\ anomaly d = detectAnomalyAt plasma mag k.
Proof.
  intros d. unfold d, buildDetection.
  destruct (computeScoreAndSeverity _ _ _ _) as [[sc lbl] cls].
  by repeat split.
Qed.

(** Every new detection was built at an index of the scanned range whose
    sample fires. *)
Lemma scan_origin (st : State) (n : nat) (i : Z) (acc : list Detection) (d : Detection) :
  d ∈ forLoop_from n i (detectAt st) acc ->
  d ∈ acc
  \/ exists k c,
      (i <= k < i + Z.of_nat n)%Z
      /\ candidateAt (plasmaBuffer st) (magBuffer st) k = Some c
      /\ d = buildDetection (plasmaBuffer st) (magBuffer st) k (candidateId c) c.
Proof.
  revert i acc. induction n as [|n IH]; intros i acc Hd; [by left|].
  simpl in Hd. apply IH in Hd. destruct Hd as [Hd | (k & c & Hk & Hc & ->)].
  - destruct (detectAt_cases st i acc) as [E | (c & Hc & _ & _ & E)];
      rewrite E in Hd; [by left|].
    apply elem_of_app in Hd. destruct Hd as [Hd|Hd]; [by left|].
    apply list_elem_of_singleton in Hd. right. exists i, c. split; [lia|done].
  - right. exists k, c. split; [lia|done].
Qed.

(** X7. A scan reports only samples that satisfy the rule: every new
    detection stems from a buffer index whose speed, density and bz are
    non-null and fire the rule, carries exactly those three readings and
    the timestamp of that sample, and its id is that timestamp and the
    rounded speed. *)
Theorem runDetection_sound (st : State) :
  Forall (fun d =>
    exists (k : Z) (p : PlasmaSample) (m : MagSample),
      at_index (plasmaBuffer st) k = Some p
      /\ at_index (magBuffer st) k = Some m
      /\ speed p = Some (d_speed d)
      /\ density p = Some (d_density d)
      /\ bz m = Some (d_bz d)
      /\ d_timeISO d = timeISO p
      /\ id d = timeISO p +:+ "_" +:+ JS.numberToString (JS.Math_round (d_speed d))
      /\ isCME (d_speed d) (d_density d) (d_bz d)
           (deltaVAt (plasmaBuffer st) k (d_speed d)) = true)
    (fst (runDetection st)).
Proof.
  apply Forall_forall. intros d Hd. rewrite runDetection_new in Hd.
  apply scan_origin in Hd. destruct Hd as [Hd | (k & c & _ & Hc & ->)].
  { by apply elem_of_nil in Hd. }
  destruct (candidateAt_inv _ _ _ _ Hc) as (m & Hp & Hm & Hs & Hde & Hb & HdV & Hf).
  destruct (buildDetection_fields (plasmaBuffer st) (magBuffer st) k (candidateId c) c)
    as (Hid & Ht & E1 & E2 & E3 & _).
  exists k, (c_sample c), m.
  rewrite Hid, Ht, E1, E2, E3, <- HdV. by repeat split.
Qed.

(** Ids pushed by the loop stay pairwise different. *)
Lemma scan_NoDup (st : State) (n : nat) (i : Z) (acc : list Detection) :
  NoDup (id <$> acc) -> NoDup (id <$> forLoop_from n i (detectAt st) acc).
Proof.
  revert i acc. induction n as [|n IH]; intros i acc Hacc; [done|].
  simpl. apply IH.
  destruct (detectAt_cases st i acc) as [-> | (c & _ & _ & Hnew & ->)]; [done|].
  rewrite fmap_app. apply NoDup_app. split; [done|]. split.
  - intros x Hx Hin.
    apply list_elem_of_fmap in Hin. destruct Hin as (d & -> & Hd).
    apply list_elem_of_singleton in Hd. subst d.
    rewrite id_buildDetection in Hx. by apply hasId_false in Hnew.
  - cbn [fmap list_fmap]. apply NoDup_singleton.
Qed.

Lemma scan_ids_distinct (st : State) :
  NoDup (id <$> fst (runDetection st)).
Proof. rewrite runDetection_new. apply scan_NoDup. constructor. Qed.

(** X9. A buffer in which no sample is fast (speed above 500) or dense
    (density above 10) yields no detection, whatever the field and the
    look-back values are, and the scan leaves the state as it was. *)
Theorem quiet_buffer_no_detection (st : State) :
  Forall quietForRule (plasmaBuffer st) -> runDetection st = ([], st).
Proof.
  intros Hquiet.
  assert (Hnone : forall k, candidateAt (plasmaBuffer st) (magBuffer st) k = None).
  { intros k.
    destruct (candidateAt (plasmaBuffer st) (magBuffer st) k) as [c|] eqn:Hc; [|done].
    destruct (candidateAt_inv _ _ _ _ Hc) as (m & Hp & _ & Hs & Hd & _ & _ & Hf).
    apply at_index_Some in Hp. destruct Hp as [_ Hp].
    apply list_elem_of_lookup_2 in Hp.
    rewrite Forall_forall in Hquiet. destruct (Hquiet _ Hp) as [Hslow Hthin].
    unfold isCME in Hf. rewrite (Hslow _ Hs), (Hthin _ Hd) in Hf.
    by destruct (c_deltaV c) as [dv|]; [destruct (JS.gt dv deltaV_min)|]. }
  assert (Hscan : forLoop_from (length (plasmaBuffer st)) 0 (detectAt st) [] = []).
  { apply forLoop_from_fixed. intros j _. unfold detectAt. by rewrite Hnone. }
  unfold runDetection, forLoop. rewrite Z.sub_0_r, Nat2Z.id, Hscan. done.
Qed.

Lemma quiet_buffer_no_detection_witness :
  runDetection (mkState [oneRow] [mkMag "2024-05-10 17:00:00.000" None None (Some (-20))] [])
  = ([], mkState [oneRow] [mkMag "2024-05-10 17:00:00.000" None None (Some (-20))] []).
Proof.
  apply quiet_buffer_no_detection. simpl.
  apply Forall_singleton. split.
  - intros s [= <-]. reflexivity.
  - intros d [= <-]. reflexivity.
Defined.

Lemma runDetection_log_lastN (st : State) :
  length (detections st) <= DETECTIONS_MAX ->
  detections (snd (runDetection st))
  = lastN DETECTIONS_MAX (detections st ++ fst (runDetection st)).
Proof.
  intros Hcap. unfold runDetection.
  destruct (forLoop 0 _ (detectAt st) []) as [|d new]; simpl; [|done].
  by rewrite app_nil_r, lastN_all.
Qed.

(** X10. From a log within its cap, a scan leaves the last 100 entries of
    the old log followed by the new detections: the newest entries are
    kept and the log never grows past 100. *)
Theorem runDetection_log_capped (st : State) :
  length (detections st) <= DETECTIONS_MAX ->
  detections (snd (runDetection st))
  = lastN 100%nat (detections st ++ fst (runDetection st))
  /\ length (detections (snd (runDetection st)))
     = Nat.min 100%nat (length (detections st) + length (fst (runDetection st))).
Proof.
  intros Hcap. pose proof (runDetection_log_lastN st Hcap) as E.
  split; [done|]. by rewrite E, lastN_length, length_app.
Qed.

Lemma runDetection_log_capped_witness :
  length (detections (stormState 101)) <= DETECTIONS_MAX
  /\ length (detections (snd (runDetection (stormState 101)))) = 100%nat.
Proof.
  assert (Hcap : length (detections (stormState 101)) <= DETECTIONS_MAX).
  { vm_compute. lia. }
  split; [exact Hcap|].
  destruct (runDetection_log_capped (stormState 101) Hcap) as [_ Hlen].
  rewrite Hlen. by vm_compute.
Defined.

Lemma appendBatch_detections (byTime : gmap string MagSample)
  (rows : list PlasmaSample) (st : State) :
  detections (fold_left (appendRow byTime) rows st) = detections st.
Proof.
  revert st. induction rows as [|p rows IH]; intros st; [done|].
  simpl. by rewrite IH.
Qed.

(** The log invariant: within the cap and without repeated ids. *)
Lemma runDetection_log_invariant (st : State) :
  length (detections st) <= DETECTIONS_MAX /\ NoDup (id <$> detections st) ->
  length (detections (snd (runDetection st))) <= DETECTIONS_MAX
  /\ NoDup (id <$> detections (snd (runDetection st))).
Proof.
  intros [Hcap Hdup].
  pose proof (runDetection_log_lastN st Hcap) as E.
  split; [rewrite E, lastN_length; lia|].
  rewrite E. unfold lastN. rewrite fmap_drop.
  apply (sublist_NoDup _ (id <$> detections st ++ fst (runDetection st)));
    [|apply sublist_drop].
  rewrite fmap_app. apply NoDup_app. split; [done|]. split.
  - intros x Hold Hnew.
    apply list_elem_of_fmap in Hnew. destruct Hnew as (d & -> & Hd).
    rewrite runDetection_new in Hd.
    pose proof (scan_fresh st (length (plasmaBuffer st)) 0 [] ltac:(constructor)) as Hfresh.
    rewrite Forall_forall in Hfresh. specialize (Hfresh d Hd).
    by apply hasId_false in Hfresh.
  - apply scan_ids_distinct.
Qed.

End ScanFacts.

(** ** Anomaly check on a short history *)

Section ShortHistory.
Local Open Scope float_scope.

Lemma omap_length_le {A B : Type} (f : A -> option B) (l : list A) :
  length (omap f l) <= length l.
Proof.
  induction l as [|x l IH]; [done|].
  change (omap f (x :: l))
    with (match f x with Some y => y :: omap f l | None => omap f l end).
  destruct (f x); simpl; lia.
Qed.

(** Fewer than 8 indices in the window give no result for a metric. *)
Lemma zCheck_short (get : Z -> option float) (s idx : Z) :
  (idx - s < 8)%Z -> zCheck get s idx = None.
Proof.
  intros Hshort. unfold zCheck, forLoop.
  rewrite forLoop_from_collect. simpl app.
  pose proof (omap_length_le get (seqZ s (Z.of_nat (Z.to_nat (idx - s))))) as Hlen.
  rewrite length_seqZ, Nat2Z.id in Hlen.
  destruct (Nat.ltb_spec (length (omap get (seqZ s (Z.of_nat (Z.to_nat (idx - s)))))) 8)
    as [_|Hge]; [done | exfalso; lia].
Qed.

Lemma detectAnomalyAt_short plasma mag (idx : Z) :
  (idx < 8)%Z ->
  detectAnomalyAt plasma mag idx = mkAnomaly false false false [] false.
Proof.
  intros Hidx. unfold detectAnomalyAt, WIN.
  assert (Hshort : (idx - Z.max 0 (idx - 60) < 8)%Z) by lia.
  by rewrite !(fun get => zCheck_short get _ idx Hshort).
Qed.

(** X11. With fewer than 8 samples before the target index (also for the
    index -1 of an empty buffer) the anomaly check reports nothing: no
    metric is flagged, there is no trigger and [isAnomaly] is false. *)
Theorem detectAnomalyAt_needs_history plasma mag (idx : Z) :
  (idx < 8)%Z ->
  let a := detectAnomalyAt plasma mag idx in
  a_speed a = false /\ a_bz a = false /\ a_density a = false
  /\ triggers a = [] /\ isAnomaly a = false.
Proof. intros Hidx. by rewrite detectAnomalyAt_short. Qed.

Lemma detectAnomalyAt_needs_history_witness :
  (7 < 8)%Z
  /\ triggers (detectAnomalyAt (fst tinySpread) (snd tinySpread) 7) = []
  /\ isAnomaly (detectAnomalyAt (fst tinySpread) (snd tinySpread) 7) = false.
Proof.
  assert (H : (7 < 8)%Z) by lia.
  destruct (detectAnomalyAt_needs_history (fst tinySpread) (snd tinySpread) 7 H)
    as (_ & _ & _ & Ht & Ha).
  by repeat split.
Defined.

Lemma checkMetric_names (name : string) (r : option ZResult) (ts : list Trigger) :
  metric <$> snd (checkMetric name r ts)
  = (metric <$> ts) ++ if fst (checkMetric name r ts) then [name] else [].
Proof.
  unfold checkMetric. destruct r as [r|]; simpl; [|by rewrite app_nil_r].
  destruct (JS.gt _ 3); simpl; [|by rewrite app_nil_r].
  by rewrite fmap_app.
Qed.

(** X12. The triggers of an anomaly result name exactly the flagged
    metrics, in the order speed, bz, density. *)
Theorem detectAnomalyAt_trigger_names plasma mag (idx : Z) :
  let a := detectAnomalyAt plasma mag idx in
  metric <$> triggers a
  = (if a_speed a then ["speed"] else [])
    ++ (if a_bz a then ["bz"] else [])
    ++ (if a_density a then ["density"] else []).
Proof.
  intros a. unfold a, detectAnomalyAt.
  set (zSpeed := zCheck (fun j => at_index plasma j ≫= speed) _ idx).
  set (zBz := zCheck (fun j => at_index mag j ≫= bz) _ idx).
  set (zD := zCheck (fun j => at_index plasma j ≫= density) _ idx).
  pose proof (checkMetric_names "speed" zSpeed []) as H1.
  destruct (checkMetric "speed" zSpeed []) as [f1 t1].
  pose proof (checkMetric_names "bz" zBz t1) as H2.
  destruct (checkMetric "bz" zBz t1) as [f2 t2].
  pose proof (checkMetric_names "density" zD t2) as H3.
  destruct (checkMetric "density" zD t2) as [f3 t3].
  cbn [a_speed a_bz a_density triggers fst snd] in *.
  rewrite H3, H2, H1. simpl. by rewrite <- app_assoc.
Qed.

End ShortHistory.

(** ** Merging and batches *)

Section MergeFacts.

Lemma magByTime_fold_lookup (magRows : list MagSample) (acc : gmap string MagSample)
  (t : string) :
  fold_left (fun acc m => <[mag_timeISO m := m]> acc) magRows acc !! t
  = match last (filter (fun m => mag_timeISO m = t) magRows) with
    | Some m => Some m
    | None => acc !! t
    end.
Proof.
  revert acc. induction magRows as [|r rows IH]; intros acc; [done|].
  simpl. rewrite IH. rewrite filter_cons.
  destruct (decide (mag_timeISO r = t)) as [E|E].
  - rewrite last_cons.
    destruct (last (filter (fun m => mag_timeISO m = t) rows)); [done|].
    by rewrite <- E, lookup_insert_eq.
  - destruct (last (filter (fun m => mag_timeISO m = t) rows)); [done|].
    by rewrite lookup_insert_ne.
Qed.

(** X13. A plasma row is paired with the last field row of the batch that
    carries its timestamp, and with an all-null field row of its own
    timestamp when the batch has none. *)
Theorem mergeRow_last_match (magRows : list MagSample) (p : PlasmaSample) :
  mergeRow (magByTime magRows) p
  = default (nullMag (timeISO p))
      (last (filter (fun m => mag_timeISO m = timeISO p) magRows)).
Proof.
  unfold mergeRow, magByTime. rewrite magByTime_fold_lookup.
  destruct (last (filter _ magRows)); [done|]. by rewrite lookup_empty.
Qed.

(** X14. In every reachable state, a batch of at most 3000 plasma rows is
    kept whole and in order at the end of both buffers, behind what is
    left of the older entries. *)
Theorem appendBatch_keeps_batch (ops : list Op)
  (plasmaRows : list PlasmaSample) (magRows : list MagSample) :
  length plasmaRows <= BUFFER_MAX ->
  let st := run ops in
  let st' := appendBatch st plasmaRows magRows in
  exists k : nat,
    plasmaBuffer st' = drop k (plasmaBuffer st) ++ plasmaRows
    /\ magBuffer st'
       = drop k (magBuffer st) ++ map (mergeRow (magByTime magRows)) plasmaRows.
Proof.
  intros Hfit st st'.
  destruct (run_invariant ops) as (Hlen & Hcap & _). fold st in Hlen, Hcap.
  destruct (appendBatch_buffers (magByTime magRows) plasmaRows st Hcap ltac:(lia))
    as (Hp & Hm & _).
  exists (length (plasmaBuffer st) + length plasmaRows - BUFFER_MAX).
  unfold st', appendBatch. rewrite Hp, Hm. unfold lastN.
  rewrite !length_app, length_map, <- Hlen.
  split; apply drop_app_le; lia.
Qed.

Lemma appendBatch_keeps_batch_witness :
  length [oneRow] <= BUFFER_MAX
  /\ exists k : nat,
      plasmaBuffer (appendBatch (run []) [oneRow] [])
      = drop k (plasmaBuffer (run [])) ++ [oneRow]
      /\ magBuffer (appendBatch (run []) [oneRow] [])
         = drop k (magBuffer (run [])) ++ map (mergeRow (magByTime [])) [oneRow].
Proof.
  assert (H : length [oneRow] <= BUFFER_MAX) by (vm_compute; lia).
  split; [exact H|]. exact (appendBatch_keeps_batch [] [oneRow] [] H).
Defined.

End MergeFacts.

(** ** The detection log over the life of the server *)

Section LogFacts.

(** X8. The detections created by one scan have pairwise different ids. *)
Theorem runDetection_distinct_ids (st : State) :
  NoDup (id <$> fst (runDetection st)).
Proof. exact (scan_ids_distinct st). Qed.

Lemma step_log_invariant (st : State) (op : Op) :
  length (detections st) <= DETECTIONS_MAX /\ NoDup (id <$> detections st) ->
  length (detections (step st op)) <= DETECTIONS_MAX
  /\ NoDup (id <$> detections (step st op)).
Proof.
  intros H. destruct op as [plasmaRows magRows|]; simpl.
  - unfold pollNOAA. apply runDetection_log_invariant.
    unfold appendBatch. by rewrite appendBatch_detections.
  - rewrite cmeDetect_state. by apply runDetection_log_invariant.
Qed.

(** X15. Whatever polls and on-demand scans the server has gone through,
    its detection log holds at most 100 entries and no two of them share an
    id. *)
Theorem log_bounded_without_duplicates (ops : list Op) :
  length (detections (run ops)) <= 100
  /\ NoDup (id <$> detections (run ops)).
Proof.
  unfold run.
  assert (Hgen : forall st,
             length (detections st) <= DETECTIONS_MAX /\ NoDup (id <$> detections st) ->
             length (detections (fold_left step ops st)) <= DETECTIONS_MAX
             /\ NoDup (id <$> detections (fold_left step ops st))).
  { induction ops as [|op ops IH]; intros st H; simpl; [done|].
    by apply IH, step_log_invariant. }
  apply Hgen. simpl. split; [unfold DETECTIONS_MAX; lia | constructor].
Qed.

End LogFacts.

(** ** Read-only endpoints *)

Section EndpointFacts.
Local Open Scope float_scope.

(** Where [arr.slice(start)] begins depends on the length only. *)
Lemma slice_same_start {A B : Type} (a : list A) (b : list B) (start : float) :
  length a = length b ->
  exists k : nat, slice a start = drop k a /\ slice b start = drop k b.
Proof.
  intros Hlen. unfold slice. rewrite Hlen. by eexists.
Qed.

(** X16. In every reachable state and for every value of [n], the two
    slices [/latest] returns are tails of the two buffers cut at the same
    place: they have the same length and entry [i] of one carries the
    timestamp of entry [i] of the other. *)
Theorem latest_slices_aligned (ops : list Op) (queryN : float) :
  let st := run ops in
  let r := latest st queryN in
  (exists k : nat,
      l_plasma r = drop k (plasmaBuffer st) /\ l_mag r = drop k (magBuffer st))
  /\ length (l_plasma r) = length (l_mag r)
  /\ Forall2 sameTime (l_plasma r) (l_mag r).
Proof.
  intros st r.
  destruct (run_invariant ops) as (Hlen & _ & Hal). fold st in Hlen, Hal.
  destruct (slice_same_start (plasmaBuffer st) (magBuffer st)
              (- JS.orElse queryN 500) Hlen) as (k & Hp & Hm).
  unfold r, latest. cbn [l_plasma l_mag]. rewrite Hp, Hm.
  split; [by exists k|].
  split; [by rewrite !length_drop, Hlen | by apply Forall2_drop].
Qed.

Lemma simpleEwmaForecast_shape (arr : list float) (alpha : float) (steps : Z) :
  simpleEwmaForecast arr alpha steps = []
  \/ exists v : float, simpleEwmaForecast arr alpha steps = replicate (Z.to_nat steps) v.
Proof.
  unfold simpleEwmaForecast. destruct (length arr =? 0)%nat; [by left|].
  right. unfold forLoop at 1. rewrite Z.sub_0_r, forLoop_from_push. by eexists.
Qed.

Lemma simpleEwmaForecast_empty (arr : list float) (alpha : float) (steps : Z) :
  (0 < steps)%Z -> (simpleEwmaForecast arr alpha steps = [] <-> arr = []).
Proof.
  intros Hsteps. unfold simpleEwmaForecast. destruct arr as [|x xs]; [done|].
  change (length (x :: xs) =? 0)%nat with false. cbv iota.
  unfold forLoop at 1. rewrite Z.sub_0_r, forLoop_from_push.
  destruct (Z.to_nat steps) as [|n] eqn:E; [lia|]. done.
Qed.

(** X17. Each forecast of [/latest] and [/predict] is empty exactly when
    the slice holds no non-null reading of its metric, and otherwise
    consists of 6 equal values. *)
Theorem endpoint_forecasts_shape (st : State) (queryN : float) :
  let shape (forecast readings : list float) :=
    (forecast = [] <-> readings = [])
    /\ (forecast = [] \/ exists v : float, forecast = replicate 6 v) in
  shape (l_speed_forecast (latest st queryN)) (omap speed (l_plasma (latest st queryN)))
  /\ shape (l_bz_forecast (latest st queryN)) (omap bz (l_mag (latest st queryN)))
  /\ shape (p_speed_forecast (predict st queryN))
       (omap speed (slice (plasmaBuffer st) (- JS.orElse queryN 200)))
  /\ shape (p_bz_forecast (predict st queryN))
       (omap bz (slice (magBuffer st) (- JS.orElse queryN 200))).
Proof.
  assert (Hshape : forall arr,
             (simpleEwmaForecast arr EWMA_ALPHA FORECAST_STEPS = [] <-> arr = [])
             /\ (simpleEwmaForecast arr EWMA_ALPHA FORECAST_STEPS = []
                 \/ exists v : float,
                      simpleEwmaForecast arr EWMA_ALPHA FORECAST_STEPS = replicate 6 v)).
  { intros arr. split; [by apply simpleEwmaForecast_empty|].
    apply (simpleEwmaForecast_shape arr EWMA_ALPHA FORECAST_STEPS). }
  cbv zeta. unfold latest, predict.
  destruct (computeScoreAndSeverity _ _ _ _) as [[sc lbl] cls].
  cbn [l_speed_forecast l_bz_forecast l_plasma l_mag p_speed_forecast p_bz_forecast].
  repeat split; apply Hshape.
Qed.

(** X18. With at most 8 samples in the buffer, [/predict] never reports an
    anomaly for the newest sample. *)
Theorem predict_needs_history (st : State) (queryN : float) :
  length (plasmaBuffer st) <= 8 ->
  quick_anomaly (predict st queryN) = mkAnomaly false false false [] false.
Proof.
  intros Hlen. unfold predict.
  destruct (computeScoreAndSeverity _ _ _ _) as [[sc lbl] cls].
  cbn [quick_anomaly]. apply detectAnomalyAt_short. lia.
Qed.

Lemma predict_needs_history_witness :
  length (plasmaBuffer initial) <= 8
  /\ quick_anomaly (predict initial 200) = mkAnomaly false false false [] false.
Proof.
  assert (H : length (plasmaBuffer initial) <= 8) by (simpl; lia).
  split; [exact H|]. exact (predict_needs_history initial 200 H).
Defined.

End EndpointFacts.

(** ** CSV rendering *)

Section CsvFacts.

Lemma append_nil_r (s : string) : s +:+ "" = s.
Proof.
  induction s as [|a s IH]; [done|].
  change (String a (s +:+ "") = String a s). by rewrite IH.
Qed.

Lemma append_assoc (s t u : string) : (s +:+ t) +:+ u = s +:+ (t +:+ u).
Proof.
  induction s as [|a s IH]; [done|].
  change (String a ((s +:+ t) +:+ u) = String a (s +:+ (t +:+ u))). by rewrite IH.
Qed.

Lemma append_cons (a : Ascii.ascii) (s t : string) :
  String a s +:+ t = String a (s +:+ t).
Proof. reflexivity. Qed.

Lemma parseFields_outside (a : Ascii.ascii) (r field : string) :
  parseFields (String a r) false field
  = if Ascii.eqb a comma then field :: parseFields r false ""
    else if Ascii.eqb a dquote then parseFields r true field
    else parseFields r false (field +:+ String a "").
Proof. reflexivity. Qed.

Lemma parseFields_inside (a : Ascii.ascii) (r field : string) :
  parseFields (String a r) true field
  = if Ascii.eqb a dquote then
      match r with
      | String b r' =>
          if Ascii.eqb b dquote
          then parseFields r' true (field +:+ String dquote "")
          else parseFields r false field
      | EmptyString => [field]
      end
    else parseFields r true (field +:+ String a "").
Proof. reflexivity. Qed.

(** A run of characters without comma and quote is taken as it is. *)
Lemma parseFields_plain (s rest field : string) :
  includes dquote s = false -> includes comma s = false ->
  parseFields (s +:+ rest) false field = parseFields rest false (field +:+ s).
Proof.
  revert field. induction s as [|a s IH]; intros field Hq Hc.
  - by rewrite append_nil_r.
  - cbn [includes] in Hq, Hc. apply orb_false_iff in Hq, Hc.
    destruct Hq as [Hq1 Hq2], Hc as [Hc1 Hc2].
    rewrite append_cons, parseFields_outside, Hc1, Hq1.
    by rewrite (IH _ Hq2 Hc2), append_assoc.
Qed.

(** A quoted field is read back up to its closing quote. *)
Lemma parseFields_quoted (s rest field : string) :
  rest = "" \/ (exists r, rest = String comma r) ->
  parseFields (doubleQuotes s +:+ String dquote rest) true field
  = parseFields rest false (field +:+ s).
Proof.
  intros Hrest. revert field. induction s as [|a s IH]; intros field.
  - rewrite append_nil_r. cbn [doubleQuotes].
    change ("" +:+ String dquote rest) with (String dquote rest).
    rewrite parseFields_inside, Ascii.eqb_refl.
    destruct Hrest as [-> | [r ->]]; [done|].
    by change (Ascii.eqb comma dquote) with false.
  - cbn [doubleQuotes]. destruct (Ascii.eqb a dquote) eqn:E.
    + apply Ascii.eqb_eq in E. subst a.
      rewrite !append_cons, parseFields_inside, !Ascii.eqb_refl.
      by rewrite IH, append_assoc.
    + rewrite append_cons, parseFields_inside, E.
      by rewrite IH, append_assoc.
Qed.

Lemma parseFields_field (v : FieldValue) (rest field : string) :
  rest = "" \/ (exists r, rest = String comma r) ->
  parseFields (csvEscape v +:+ rest) false field
  = parseFields rest false (field +:+ fieldText v).
Proof.
  intros Hrest.
  assert (Htext : forall s,
             parseFields
               ((if includes dquote s || includes comma s || includes LF s || includes CR s
                 then String dquote (doubleQuotes s +:+ String dquote "")
                 else s) +:+ rest) false field
             = parseFields rest false (field +:+ s)).
  { intros s.
    destruct (includes dquote s || includes comma s || includes LF s || includes CR s)
      eqn:E.
    - rewrite append_cons, parseFields_outside.
      change (Ascii.eqb dquote comma) with false. rewrite Ascii.eqb_refl.
      rewrite append_assoc, append_cons.
      change ("" +:+ rest) with rest.
      by apply parseFields_quoted.
    - apply orb_false_iff in E. destruct E as [E _].
      apply orb_false_iff in E. destruct E as [E _].
      apply orb_false_iff in E. destruct E as [Eq Ec].
      by apply parseFields_plain. }
  destruct v as [|s|x]; [|apply Htext..].
  change (csvEscape FNull +:+ rest) with rest.
  change (fieldText FNull) with "". by rewrite append_nil_r.
Qed.

Lemma joinComma_cons (x y : string) (l : list string) :
  joinComma (x :: y :: l) = x +:+ String comma (joinComma (y :: l)).
Proof. reflexivity. Qed.

Lemma parseFields_join (v : FieldValue) (vs : list FieldValue) (field : string) :
  parseFields (joinComma (map csvEscape (v :: vs))) false field
  = (field +:+ fieldText v) :: map fieldText vs.
Proof.
  revert v field. induction vs as [|w vs IH]; intros v field.
  - change (joinComma (map csvEscape [v])) with (csvEscape v).
    rewrite <- (append_nil_r (csvEscape v)), parseFields_field by (by left).
    done.
  - change (map csvEscape (v :: w :: vs))
      with (csvEscape v :: csvEscape w :: map csvEscape vs).
    rewrite joinComma_cons, parseFields_field by (right; by eexists).
    rewrite parseFields_outside, Ascii.eqb_refl.
    change (csvEscape w :: map csvEscape vs) with (map csvEscape (w :: vs)).
    by rewrite IH.
Qed.

(** X19. A CSV line written for a detection reads back, field by field
    under the quoting rule, as the 13 exported values in their string
    form (null as the empty string), whatever commas, quotes or line
    breaks the values hold. *)
Theorem csvLine_round_trip (r : Detection) :
  parseCsvLine (csvLine r) = map fieldText (rowValues r)
  /\ length (parseCsvLine (csvLine r)) = length cols.
Proof.
  assert (E : parseCsvLine (csvLine r) = map fieldText (rowValues r)).
  { unfold parseCsvLine, csvLine, rowValues. by rewrite parseFields_join. }
  split; [done|]. by rewrite E.
Qed.

End CsvFacts.
